(** * QKD OpenSSL engine: session and key-buffer logic of the RAND method

    Shallow embedding of [src/engine/qkd/template_engine.c] (the functions
    [perform_post], [template_engine_connect], [template_engine_fetch_key],
    [template_engine_close], [template_rand_bytes], [template_rand_status],
    [template_engine_ctrl]).  The copy of the engine kept in
    [src/engine/qkd/temp_engine.zsh] ([qkd_engine_connect],
    [qkd_engine_fetch_key], [qkd_rand_bytes], ...) has the same control flow
    and differs only in the text of its log messages.  The key-loading
    engine of [src/engine/remote_qkd_engine.c] and the stub RAND method that
    fills the buffer with a constant are other programs and are not modelled.

    Modelling conventions.
    - The five static globals of the C file are the fields of [Globals];
      a NULL pointer is [None].
    - [size_t] is taken to be 64 bits wide and [int] 32 bits wide; every
      conversion the C code performs is written out with [to_size_t] and
      [to_int].
    - The network is a list of replies that [curl_easy_perform] consumes in
      order, together with the log of the requests sent so far.
    - Memory allocation ([malloc], [strdup], [strndup], [asprintf],
      [curl_easy_init]) is taken to succeed; the branches of the C code that
      test for its failure are kept, and are dead in the model.
    - [printf]/[fprintf] logging is not modelled. *)

From Stdlib Require Import ZArith List String Ascii Bool Lia.
From Stdlib Require Import Strings.Byte.
Import ListNotations.
Local Open Scope Z_scope.

(** ** Machine integers *)

Definition INT_MAX : Z := 2147483647.
Definition SIZE_MOD : Z := 18446744073709551616.

(** Conversion to [int] (two's complement, 32 bits). *)
Definition to_int (z : Z) : Z := (z + 2147483648) mod 4294967296 - 2147483648.

(** Conversion to [size_t] (unsigned, 64 bits). *)
Definition to_size_t (z : Z) : Z := z mod SIZE_MOD.

(** ** C strings *)

Definition dquote : ascii := "034"%char.

(** A response buffer is read as a C string: it ends at its first NUL byte,
    whatever follows it in the buffer. *)
Definition NUL : ascii := Ascii.zero.

(** [strchr s c]: the suffix of [s] that starts at the first [c], looked for
    up to the end of the C string. *)
Fixpoint strchr (s : string) (c : ascii) : option string :=
  match s with
  | EmptyString => None
  | String a s' =>
      if Ascii.eqb a c then Some s
      else if Ascii.eqb a NUL then None
      else strchr s' c
  end.

(** [strstr hay needle]: the suffix of [hay] that starts at the first
    occurrence of [needle], looked for up to the end of the C string.  The
    needles of the engine are literals without a NUL byte. *)
Fixpoint strstr (hay needle : string) : option string :=
  if String.prefix needle hay then Some hay
  else match hay with
       | EmptyString => None
       | String a hay' =>
           if Ascii.eqb a NUL then None else strstr hay' needle
       end.

(** [free_of c s]: the character [c] does not occur in [s]. *)
Fixpoint free_of (c : ascii) (s : string) : bool :=
  match s with
  | EmptyString => true
  | String a s' => negb (Ascii.eqb a c) && free_of c s'
  end.

(** Pointer arithmetic [p + n] on a C string. *)
Fixpoint str_advance (n : nat) (p : string) : string :=
  match n, p with
  | O, _ => p
  | S n', String _ p' => str_advance n' p'
  | S _, EmptyString => EmptyString
  end.

(** The [len] characters starting at [p]: what [strncpy]/[strndup] copy. *)
Definition strncpy (p : string) (len : nat) : string := String.substring 0 len p.

(** The text between the quote that follows the field name at [p + 12] and
    the next quote: the value of ["key_handle"] or ["key_buffer"].  [q - p]
    is the difference of the two suffix lengths. *)
Definition quoted_value_after (p : string) : option string :=
  match strchr (str_advance 12 p) dquote with
  | None => None
  | Some p1 =>
      let p2 := str_advance 1 p1 in
      match strchr p2 dquote with
      | None => None
      | Some q => Some (strncpy p2 (String.length p2 - String.length q))
      end
  end.

Definition quoted (s : string) : string :=
  String dquote (s ++ String dquote EmptyString)%string.

Definition key_handle_name : string := quoted "key_handle".
Definition key_buffer_name : string := quoted "key_buffer".

(** [asprintf(&out, "%s<suffix>", base)] *)
Definition asprintf_path (base suffix : string) : option string :=
  Some (base ++ suffix)%string.

(** The JSON object that carries a session handle. *)
Definition handle_payload (handle : string) : string :=
  ("{" ++ key_handle_name ++ ": " ++ quoted handle ++ "}")%string.

(** [asprintf(&out, "{\"key_handle\": \"%s\"}", handle)] *)
Definition asprintf_handle (handle : string) : option string :=
  Some (handle_payload handle).

(** ** The network *)

Record Request := mkRequest { req_url : string; req_body : string }.

Inductive Reply :=
| CurlError                           (* curl_easy_perform() != CURLE_OK *)
| Http (code : Z) (body : string).    (* status line and response body *)

Record World := mkWorld {
  replies : list Reply;     (* what the service will answer, in order *)
  sent : list Request       (* requests issued so far, oldest first *)
}.

(** One blocking round-trip.  A service that has stopped answering makes
    the transfer fail. *)
Definition curl_easy_perform (rq : Request) (w : World) : Reply * World :=
  match replies w with
  | [] => (CurlError, mkWorld [] (sent w ++ [rq]))
  | r :: rs => (r, mkWorld rs (sent w ++ [rq]))
  end.

(** ** Engine state *)

Record Globals := mkGlobals {
  qkd_service_url : option string;
  qkd_key_handle : option string;
  qkd_key_buffer : option (list byte);
  qkd_key_buffer_len : Z;
  qkd_key_buffer_pos : Z
}.

Definition initial_globals : Globals := mkGlobals None None None 0 0.

Definition set_url (g : Globals) (u : option string) : Globals :=
  mkGlobals u (qkd_key_handle g) (qkd_key_buffer g)
            (qkd_key_buffer_len g) (qkd_key_buffer_pos g).

Definition set_handle (g : Globals) (h : option string) : Globals :=
  mkGlobals (qkd_service_url g) h (qkd_key_buffer g)
            (qkd_key_buffer_len g) (qkd_key_buffer_pos g).

Definition set_buffer (g : Globals) (b : option (list byte)) (len : Z) : Globals :=
  mkGlobals (qkd_service_url g) (qkd_key_handle g) b len (qkd_key_buffer_pos g).

Definition set_pos (g : Globals) (pos : Z) : Globals :=
  mkGlobals (qkd_service_url g) (qkd_key_handle g) (qkd_key_buffer g)
            (qkd_key_buffer_len g) pos.

(** What [perform_post] hands back: the response body (or NULL) and the
    final contents of the cells behind its three out-pointers. *)
Record PostResult := mkPost {
  response_body : option string;
  post_handle : option (option string);
  post_key : option (option (list byte));
  post_key_len : option Z
}.

(** ** A reference Base64 decoder

    The engine takes OpenSSL's [EVP_DecodeBlock] as a parameter.  This is the
    decoder used to run the engine on concrete replies: the standard
    alphabet, input length a multiple of four, three bytes per group of four
    characters, [=] decoded as six zero bits and counted in the output, as
    [EVP_DecodeBlock] does.  The white space that [EVP_DecodeBlock] skips at
    both ends of its input is not skipped here; the runs below use none. *)

Definition b64_digit (c : ascii) : option N :=
  let n := N_of_ascii c in
  (if (65 <=? n) && (n <=? 90) then Some (n - 65)
   else if (97 <=? n) && (n <=? 122) then Some (n - 71)
   else if (48 <=? n) && (n <=? 57) then Some (n + 4)
   else if n =? 43 then Some 62
   else if n =? 47 then Some 63
   else if n =? 61 then Some 0
   else None)%N.

Definition byte_of_N (n : N) : byte :=
  match Byte.of_N (n mod 256) with
  | Some b => b
  | None => x00
  end.

Fixpoint b64_groups (l : list ascii) : option (list byte) :=
  match l with
  | [] => Some []
  | a :: b :: c :: d :: rest =>
      match b64_digit a, b64_digit b, b64_digit c, b64_digit d, b64_groups rest with
      | Some x, Some y, Some z, Some t, Some bs =>
          let v := (x * 262144 + y * 4096 + z * 64 + t)%N in
          Some (byte_of_N (v / 65536) :: byte_of_N (v / 256) :: byte_of_N v :: bs)
      | _, _, _, _, _ => None
      end
  | _ => None
  end.

Definition base64_decode (s : string) : option (list byte) :=
  b64_groups (list_ascii_of_string s).

Section Engine.

(** OpenSSL's Base64 block decoder: [None] is the return value -1, [Some bs]
    the bytes written to the output, whose count is the return value. *)
Variable EVP_DecodeBlock : string -> option (list byte).

(** ** [perform_post]

    An out-pointer is [None] when the caller passes NULL and [Some v] when it
    points at a cell that currently holds [v]. *)
Definition perform_post (url post_data : string)
    (handle_out : option (option string))
    (key_out : option (option (list byte)))
    (key_len_out : option Z)
    (w : World) : PostResult * World :=
  let '(r, w1) := curl_easy_perform (mkRequest url post_data) w in
  match r with
  | CurlError => (mkPost None handle_out key_out key_len_out, w1)
  | Http http_code body =>
      if negb (http_code =? 200)
      then (mkPost None handle_out key_out key_len_out, w1)
      else
        match handle_out, key_out, key_len_out with
        | Some h0, _, _ =>
            let h :=
              match strstr body key_handle_name with
              | Some p =>
                  match quoted_value_after p with
                  | Some v => Some v
                  | None => h0
                  end
              | None => h0
              end in
            (mkPost (Some body) (Some h) key_out key_len_out, w1)
        | None, Some k0, Some l0 =>
            let '(k, l) :=
              match strstr body key_buffer_name with
              | Some p =>
                  match quoted_value_after p with
                  | Some base64_str =>
                      let d := EVP_DecodeBlock base64_str in
                      let ret := match d with
                                 | Some bs => Z.of_nat (List.length bs)
                                 | None => -1
                                 end in
                      let len := to_size_t ret in
                      if to_int len <? 0 then (None, 0) else (d, len)
                  | None => (k0, l0)
                  end
              | None => (k0, l0)
              end in
            (mkPost (Some body) handle_out (Some k) (Some l), w1)
        | None, _, _ =>
            (mkPost (Some body) handle_out key_out key_len_out, w1)
        end
  end.

(** The value left in a global by a call that was given its address. *)
Definition cell {A} (c : option A) (old : A) : A :=
  match c with Some v => v | None => old end.

(** ** Session *)

(** The cleanup block shared by [connect_err:] and [template_engine_close]:
    post the close request if both strings could be built, ignore the
    answer. *)
Definition post_close (url handle : string) (w : World) : World :=
  match asprintf_path url "/qkd_close", asprintf_handle handle with
  | Some close_url, Some close_payload =>
      snd (perform_post close_url close_payload None None None w)
  | _, _ => w
  end.

(** The [connect_err:] label of [template_engine_connect]. *)
Definition connect_err (url : string) (g : Globals) (w : World)
  : Z * Globals * World :=
  match qkd_key_handle g with
  | Some h => (-1, set_handle g None, post_close url h w)
  | None => (-1, g, w)
  end.

Definition template_engine_connect (g : Globals) (w : World)
  : Z * Globals * World :=
  match qkd_service_url g with
  | None => (-1, g, w)
  | Some url =>
      (* Step 1: open *)
      match asprintf_path url "/qkd_open" with
      | None => (-1, g, w)
      | Some open_url =>
          let '(r, w1) :=
            perform_post open_url "{}" (Some (qkd_key_handle g)) None None w in
          let g1 := set_handle g (cell (post_handle r) (qkd_key_handle g)) in
          match response_body r, qkd_key_handle g1 with
          | Some _, Some h =>
              (* Step 2: connect blocking *)
              match asprintf_path url "/qkd_connect_blocking" with
              | None => connect_err url g1 w1
              | Some connect_url =>
                  match asprintf_handle h with
                  | None => connect_err url g1 w1
                  | Some connect_payload =>
                      let '(r2, w2) :=
                        perform_post connect_url connect_payload
                                     None None None w1 in
                      match response_body r2 with
                      | None => connect_err url g1 w2
                      | Some _ => (0, g1, w2)
                      end
                  end
              end
          | _, _ => (-1, g1, w1)
          end
      end
  end.

Definition template_engine_fetch_key (g : Globals) (w : World)
  : Z * Globals * World :=
  match qkd_service_url g, qkd_key_handle g with
  | Some url, Some h =>
      let g0 := set_pos (set_buffer g None 0) 0 in
      match asprintf_path url "/qkd_get_key" with
      | None => (-1, g0, w)
      | Some get_key_url =>
          match asprintf_handle h with
          | None => (-1, g0, w)
          | Some get_key_payload =>
              let '(r, w1) :=
                perform_post get_key_url get_key_payload None
                             (Some (qkd_key_buffer g0))
                             (Some (qkd_key_buffer_len g0)) w in
              let g1 := set_buffer g0 (cell (post_key r) (qkd_key_buffer g0))
                                   (cell (post_key_len r) (qkd_key_buffer_len g0)) in
              match response_body r, qkd_key_buffer g1 with
              | Some _, Some _ =>
                  if qkd_key_buffer_len g1 =? 0
                  then (-1, set_buffer g1 None 0, w1)
                  else (0, set_pos g1 0, w1)
              | _, _ => (-1, set_buffer g1 None 0, w1)
              end
          end
      end
  | _, _ => (-1, g, w)
  end.

Definition template_engine_close (g : Globals) (w : World) : Globals * World :=
  let '(g1, w1) :=
    match qkd_key_handle g, qkd_service_url g with
    | Some h, Some url => (set_handle g None, post_close url h w)
    | _, _ => (g, w)
    end in
  (set_pos (set_buffer g1 None 0) 0, w1).

(** ** RAND method *)

(** [memcpy(dst + off, src, n)] with [n] the length of [src].  The caller's
    buffer is meant to have room for the bytes: a copy past its end is
    undefined in C. *)
Definition memcpy (dst : list byte) (off : Z) (src : list byte) : list byte :=
  firstn (Z.to_nat off) dst ++ src
    ++ skipn (Z.to_nat off + List.length src) dst.

(** The [n] bytes at [qkd_key_buffer + qkd_key_buffer_pos]. *)
Definition key_slice (g : Globals) (n : Z) : list byte :=
  match qkd_key_buffer g with
  | Some bs => firstn (Z.to_nat n) (skipn (Z.to_nat (qkd_key_buffer_pos g)) bs)
  | None => []
  end.

(** Lines 243-248 of [template_rand_bytes]: serve as much of the request as
    the current block allows.  Returns the output buffer, the new value of
    [bytes_provided] and the globals. *)
Definition copy_from_key_buffer (buf : list byte) (num bytes_provided : Z)
    (g : Globals) : list byte * Z * Globals :=
  let bytes_to_copy := to_size_t (qkd_key_buffer_len g - qkd_key_buffer_pos g) in
  let bytes_needed := to_int (num - bytes_provided) in
  let bytes_to_copy :=
    if to_size_t bytes_needed <? bytes_to_copy
    then to_size_t bytes_needed else bytes_to_copy in
  let buf' := memcpy buf bytes_provided (key_slice g bytes_to_copy) in
  let g' := set_pos g (to_size_t (qkd_key_buffer_pos g + bytes_to_copy)) in
  let bytes_provided' := to_int (to_size_t (to_size_t bytes_provided + bytes_to_copy)) in
  (buf', bytes_provided', g').

(** The result of a call of [template_rand_bytes]: the value returned, the
    caller's buffer, the final value of the local [bytes_provided], and the
    state left behind. *)
Record RandResult := mkRand {
  rand_ret : Z;
  rand_buf : list byte;
  rand_provided : Z;
  rand_globals : Globals;
  rand_world : World
}.

(** Lines 236-242 of [template_rand_bytes]: fetch a new block when the
    current one is used up.  The boolean tells the loop to return
    [bytes_provided > 0]: the fetch failed, or left a block of length 0. *)
Definition refill_if_exhausted (g : Globals) (w : World)
  : bool * Globals * World :=
  if qkd_key_buffer_pos g >=? qkd_key_buffer_len g then
    let '(rc, g1, w1) := template_engine_fetch_key g w in
    if negb (rc =? 0) then (true, g1, w1)
    else if qkd_key_buffer_len g1 =? 0 then (true, g1, w1)
    else (false, g1, w1)
  else (false, g, w).

(** The [while (bytes_provided < num)] loop.  [None] stands for a loop that
    has not finished within [fuel] iterations. *)
Fixpoint rand_bytes_loop (fuel : nat) (buf : list byte) (num bytes_provided : Z)
    (g : Globals) (w : World) : option RandResult :=
  if bytes_provided <? num then
    match fuel with
    | O => None
    | S fuel' =>
        let '(stop, g1, w1) := refill_if_exhausted g w in
        if stop
        then Some (mkRand (if 0 <? bytes_provided then 1 else 0)
                          buf bytes_provided g1 w1)
        else
          let '(buf', bytes_provided', g2) :=
            copy_from_key_buffer buf num bytes_provided g1 in
          rand_bytes_loop fuel' buf' num bytes_provided' g2 w1
    end
  else Some (mkRand 1 buf bytes_provided g w).

(** Every iteration that does not return copies at least one byte, so [num]
    iterations are enough; see [produce_terminates] and [loop_produce]. *)
Definition template_rand_bytes (buf : list byte) (num : Z)
    (g : Globals) (w : World) : option RandResult :=
  let bytes_provided := 0 in
  match qkd_key_handle g with
  | None =>
      let '(rc, g1, w1) := template_engine_connect g w in
      if negb (rc =? 0) then Some (mkRand 0 buf bytes_provided g1 w1)
      else rand_bytes_loop (Z.to_nat num) buf num bytes_provided g1 w1
  | Some _ => rand_bytes_loop (Z.to_nat num) buf num bytes_provided g w
  end.

Definition template_rand_seed (buf : list byte) (num : Z) : Z := 1.

Definition template_rand_add (buf : list byte) (num : Z) : Z := 1.

Definition template_rand_cleanup (g : Globals) (w : World) : Globals * World :=
  template_engine_close g w.

Definition template_rand_status (g : Globals) : Z :=
  match qkd_service_url g with Some _ => 1 | None => 0 end.

(** ** Control command *)

Definition strdup (s : string) : option string := Some s.

(** [p] is the [void *] argument: NULL or a C string. *)
Definition template_engine_ctrl (cmd : Z) (p : option string) (g : Globals)
  : Z * Globals :=
  if cmd =? 1 then
    match p with
    | None => (0, g)
    | Some s =>
        let g1 := set_url g (strdup s) in
        match qkd_service_url g1 with
        | None => (0, g1)
        | Some _ => (1, g1)
        end
    end
  else (0, g).

Definition template_engine_destroy (g : Globals) (w : World)
  : Z * Globals * World :=
  let '(g1, w1) := template_engine_close g w in
  (1, set_url g1 None, w1).

(** ** The engine of [temp_engine.zsh]

    Its functions are the ones above under other names. *)
Definition qkd_engine_connect := template_engine_connect.
Definition qkd_engine_fetch_key := template_engine_fetch_key.
Definition qkd_engine_close := template_engine_close.
Definition qkd_rand_bytes := template_rand_bytes.

(** ** The byte stream of a request

    [produce fuel need g w] is the loop seen from the caller's side: the
    bytes a request for [need] more bytes obtains, whether it was served in
    full, and the state it leaves.  It uses plain integer arithmetic;
    [loop_produce] shows that the C loop computes it. *)
Fixpoint produce (fuel : nat) (need : Z) (g : Globals) (w : World)
  : option (list byte * bool * Globals * World) :=
  if 0 <? need then
    match fuel with
    | O => None
    | S fuel' =>
        let '(stop, g1, w1) := refill_if_exhausted g w in
        if stop then Some ([], false, g1, w1)
        else
          let k := Z.min (qkd_key_buffer_len g1 - qkd_key_buffer_pos g1) need in
          match produce fuel' (need - k)
                        (set_pos g1 (qkd_key_buffer_pos g1 + k)) w1 with
          | Some (out, ok, g', w') => Some (key_slice g1 k ++ out, ok, g', w')
          | None => None
          end
    end
  else Some ([], true, g, w).

(** ** State invariant *)

(** The read position lies inside the block, the length is a [size_t], and
    the block holds at least [qkd_key_buffer_len] bytes (none when the
    pointer is NULL). *)
Definition wf (g : Globals) : Prop :=
  0 <= qkd_key_buffer_pos g <= qkd_key_buffer_len g /\
  qkd_key_buffer_len g < SIZE_MOD /\
  match qkd_key_buffer g with
  | Some bs => qkd_key_buffer_len g <= Z.of_nat (List.length bs)
  | None => qkd_key_buffer_len g = 0
  end.

(** The state a failed fetch leaves: block released, length and position 0. *)
Definition emptied (g : Globals) : Globals :=
  mkGlobals (qkd_service_url g) (qkd_key_handle g) None 0 0.

(** ** Requests *)

Definition get_key_request (url h : string) : Request :=
  mkRequest (url ++ "/qkd_get_key")%string (handle_payload h).

Definition open_request (url : string) : Request :=
  mkRequest (url ++ "/qkd_open")%string "{}"%string.

Definition connect_request (url h : string) : Request :=
  mkRequest (url ++ "/qkd_connect_blocking")%string (handle_payload h).

Definition close_request (url h : string) : Request :=
  mkRequest (url ++ "/qkd_close")%string (handle_payload h).

(** ** Data for concrete runs *)

(** The service address of the build script, a configured engine, and the
    replies of a service. *)
Definition qkd_url : string := "http://127.0.0.1:5000".

Definition configured : Globals :=
  snd (template_engine_ctrl 1 (Some qkd_url) initial_globals).

Definition handle_reply (h : string) : Reply := Http 200 (handle_payload h).

Definition key_reply (b64 : string) : Reply :=
  Http 200 ("{" ++ key_buffer_name ++ ": " ++ quoted b64 ++ "}")%string.

Definition ok_reply : Reply := Http 200 "{}".

Definition service (rs : list Reply) : World := mkWorld rs [].

(** A session opened with handle [H1] whose block is [bs], read up to
    [pos]. *)
Definition session (bs : list byte) (pos : Z) : Globals :=
  mkGlobals (Some qkd_url) (Some "H1"%string) (Some bs)
            (Z.of_nat (List.length bs)) pos.

Definition unwritten (n : nat) : list byte := repeat xff n.

(** Two requests for three bytes each, with the globals passed through
    [between] after the first: the world at the end. *)
Definition two_requests (between : Globals -> Globals) (w : World)
  : option World :=
  match template_rand_bytes (unwritten 3) 3 configured w with
  | Some r1 =>
      option_map rand_world
        (template_rand_bytes (unwritten 3) 3
           (between (rand_globals r1)) (rand_world r1))
  | None => None
  end.

(** A service that hands out [1; 2; 3], fails the next fetch with status
    500, then hands out [4; 5; 6]. *)
Definition flaky_service : World :=
  service [handle_reply "H1"; ok_reply; key_reply "AQID"; Http 500 EmptyString;
           key_reply "BAUG"].

(** ** The libcurl write callback *)

(** [struct MemoryStruct]: the block behind [memory] and the count [size] of
    body bytes stored in it. *)
Record MemoryStruct := mkMem { memory : list byte; size : Z }.

(** [realloc(old, n)], taken to succeed: the first [n] bytes of the old block
    are kept and a longer block is completed with bytes of no known value,
    here [junk]. *)
Definition realloc (old : list byte) (n : Z) (junk : byte) : list byte :=
  firstn (Z.to_nat n) old
    ++ repeat junk (Z.to_nat n - List.length old).

(** [chunk.memory = malloc(1); chunk.size = 0] *)
Definition empty_chunk (junk : byte) : MemoryStruct := mkMem [junk] 0.

(** [contents] holds the [size * nmemb] bytes libcurl delivers.  Returns the
    value returned to libcurl and the structure behind [userp]. *)
Definition WriteMemoryCallback (contents : list byte) (size_ nmemb : Z)
    (mem : MemoryStruct) (junk : byte) : Z * MemoryStruct :=
  let realsize := to_size_t (size_ * nmemb) in
  let ptr := realloc (memory mem) (to_size_t (size mem + realsize + 1)) junk in
  let m1 := memcpy ptr (size mem) (firstn (Z.to_nat realsize) contents) in
  let size' := to_size_t (size mem + realsize) in
  let m2 := memcpy m1 size' [x00] in
  (realsize, mkMem m2 size').

(** The callback run over the pieces of a body, each delivered with
    [size = 1] and [nmemb] its length, as libcurl does. *)
Fixpoint receive (pieces : list (list byte)) (mem : MemoryStruct) (junk : byte)
  : MemoryStruct :=
  match pieces with
  | [] => mem
  | c :: cs =>
      receive cs (snd (WriteMemoryCallback c 1 (Z.of_nat (List.length c)) mem junk))
              junk
  end.

(** ** Calls of the host

    The host reaches the engine through the [RAND_METHOD] table, the control
    function and the destroy function, in any order. *)
Inductive HostCall :=
| CallCtrl (cmd : Z) (p : option string)
| CallRandBytes (buf : list byte) (num : Z)
| CallRandSeed (buf : list byte) (num : Z)
| CallRandAdd (buf : list byte) (num : Z)
| CallRandStatus
| CallRandCleanup
| CallDestroy.

Definition host_step (c : HostCall) (g : Globals) (w : World)
  : option (Globals * World) :=
  match c with
  | CallCtrl cmd p => Some (snd (template_engine_ctrl cmd p g), w)
  | CallRandBytes buf num =>
      option_map (fun r => (rand_globals r, rand_world r))
                 (template_rand_bytes buf num g w)
  | CallRandSeed _ _ | CallRandAdd _ _ | CallRandStatus => Some (g, w)
  | CallRandCleanup => Some (template_rand_cleanup g w)
  | CallDestroy =>
      let '(_, g1, w1) := template_engine_destroy g w in Some (g1, w1)
  end.

Fixpoint host_run (cs : list HostCall) (g : Globals) (w : World)
  : option (Globals * World) :=
  match cs with
  | [] => Some (g, w)
  | c :: cs' =>
      match host_step c g w with
      | Some (g1, w1) => host_run cs' g1 w1
      | None => None
      end
  end.

(** The counts passed to [template_rand_bytes] are values of type [int]. *)
Definition int_counts (cs : list HostCall) : Prop :=
  Forall (fun c => match c with
                   | CallRandBytes _ num => num <= INT_MAX
                   | _ => True
                   end) cs.

(** A handle is only ever held together with a URL. *)
Definition session_configured (g : Globals) : Prop :=
  qkd_key_handle g <> None -> qkd_service_url g <> None.

(** ** Key material

    The bytes still unread in the key buffer, and the block a fetch installs
    from a reply: the decoded ["key_buffer"] field of a 200 reply, nothing
    for a reply that makes the fetch fail. *)
Definition leftover (g : Globals) : list byte :=
  key_slice g (qkd_key_buffer_len g - qkd_key_buffer_pos g).

Definition reply_block (r : Reply) : list byte :=
  match r with
  | CurlError => []
  | Http code body =>
      if code =? 200 then
        match strstr body key_buffer_name with
        | Some p =>
            match quoted_value_after p with
            | Some b64 =>
                match EVP_DecodeBlock b64 with
                | Some bs =>
                    let len := to_size_t (Z.of_nat (List.length bs)) in
                    if to_int len <? 0 then [] else firstn (Z.to_nat len) bs
                | None => []
                end
            | None => []
            end
        | None => []
        end
      else []
  end.

(** The reply the next request obtains. *)
Definition next_reply (w : World) : Reply := hd CurlError (replies w).

(** [perform_post] searches the body of a 200 reply as a C string.  libcurl
    runs the write callback only on body bytes, so after a 200 reply without
    any the search starts at the byte [malloc(1)] left in [chunk.memory],
    which has no known value.  The model reads such a body as the empty
    string; [body_received] tells the replies for which nothing is
    assumed. *)
Definition body_received (r : Reply) : bool :=
  match r with
  | Http code EmptyString => negb (code =? 200)
  | _ => true
  end.


(** ** Strings *)

Lemma string_length_append (a s : string) :
  String.length (a ++ s) = (String.length a + String.length s)%nat.
Proof. induction a as [|c a IH]; simpl; [reflexivity | now rewrite IH]. Qed.

(** Two addresses that give the same URL for a path are the same address. *)
Lemma append_inj_l (a b s : string) : (a ++ s = b ++ s)%string -> a = b.
Proof.
  intros H.
  assert (L : String.length a = String.length b).
  { apply (f_equal String.length) in H.
    rewrite !string_length_append in H. lia. }
  revert b H L. induction a as [|c a IH]; intros [|d b] H L;
    simpl in *; try discriminate; [reflexivity|].
  inversion H; subst. f_equal. apply IH; [assumption | lia].
Qed.

(** ** Machine arithmetic *)

Lemma to_size_t_small z : 0 <= z < SIZE_MOD -> to_size_t z = z.
Proof. intros H. unfold to_size_t. now apply Z.mod_small. Qed.

Lemma to_int_small z : -2147483648 <= z <= INT_MAX -> to_int z = z.
Proof.
  unfold to_int, INT_MAX. intros H.
  rewrite Z.mod_small by lia. lia.
Qed.

Lemma to_size_t_range z : 0 <= to_size_t z < SIZE_MOD.
Proof. unfold to_size_t, SIZE_MOD. apply Z.mod_pos_bound. lia. Qed.

Lemma to_size_t_le z : 0 <= z -> to_size_t z <= z.
Proof. intros H. unfold to_size_t, SIZE_MOD. apply Z.mod_le; lia. Qed.

Lemma wf_initial : wf initial_globals.
Proof. unfold wf; simpl. unfold SIZE_MOD. lia. Qed.

Lemma wf_emptied g : wf (emptied g).
Proof. unfold wf; simpl. unfold SIZE_MOD. lia. Qed.

(** ** [perform_post] *)

Lemma perform_post_sent url data ho ko lo w :
  sent (snd (perform_post url data ho ko lo w)) = sent w ++ [mkRequest url data].
Proof.
  unfold perform_post, curl_easy_perform.
  destruct (replies w) as [|r rs]; simpl.
  - reflexivity.
  - destruct r as [|code body]; simpl; [reflexivity|].
    destruct (negb (code =? 200)); simpl; [reflexivity|].
    destruct ho as [h0|]; simpl; [reflexivity|].
    destruct ko as [k0|]; simpl; [|reflexivity].
    destruct lo as [l0|]; simpl; [|reflexivity].
    match goal with |- context [let '(_, _) := ?e in _] => destruct e end.
    reflexivity.
Qed.

(** The key cells after a fetch-style call: either untouched, or cleared, or
    a decoded block together with its length as a [size_t]. *)
Lemma perform_post_key url data k0 l0 w r w1 :
  perform_post url data None (Some k0) (Some l0) w = (r, w1) ->
  post_handle r = None /\
  ((post_key r = Some k0 /\ post_key_len r = Some l0) \/
   (post_key r = Some None /\ post_key_len r = Some 0) \/
   (exists bs, post_key r = Some (Some bs) /\
               post_key_len r = Some (to_size_t (Z.of_nat (List.length bs))))).
Proof.
  unfold perform_post.
  destruct (curl_easy_perform (mkRequest url data) w) as [rp w'].
  destruct rp as [|code body].
  - intros H; inversion H; subst; simpl; auto.
  - destruct (negb (code =? 200)).
    + intros H; inversion H; subst; simpl; auto.
    + destruct (strstr body key_buffer_name) as [p|].
      * destruct (quoted_value_after p) as [b64|].
        -- destruct (EVP_DecodeBlock b64) as [bs|]; cbv zeta.
           ++ destruct (to_int (to_size_t (Z.of_nat (List.length bs))) <? 0);
                intros H; inversion H; subst; simpl; split; auto.
              right; right. eauto.
           ++ (* the decoder's -1 reads back as a negative [int] *)
              replace (to_int (to_size_t (-1)) <? 0) with true
                by (vm_compute; reflexivity).
              intros H; inversion H; subst; simpl; auto.
        -- intros H; inversion H; subst; simpl; auto.
      * intros H; inversion H; subst; simpl; auto.
Qed.

(** ** [template_engine_fetch_key] *)

(** A fetch either is refused before anything happens (no URL or no handle),
    or sends exactly one request and then either installs a non-empty block
    at position 0 or leaves the buffer emptied. *)
Lemma fetch_key_cases g w rc g1 w1 :
  template_engine_fetch_key g w = (rc, g1, w1) ->
  (rc = -1 /\ (qkd_service_url g = None \/ qkd_key_handle g = None) /\
   g1 = g /\ w1 = w) \/
  (exists url h,
     qkd_service_url g = Some url /\ qkd_key_handle g = Some h /\
     sent w1 = sent w ++ [get_key_request url h] /\
     ((rc = -1 /\ g1 = emptied g) \/
      (rc = 0 /\ exists bs,
         g1 = mkGlobals (Some url) (Some h) (Some bs)
                        (to_size_t (Z.of_nat (List.length bs))) 0 /\
         to_size_t (Z.of_nat (List.length bs)) <> 0))).
Proof.
  unfold template_engine_fetch_key.
  destruct g as [u hd kb kl kp]; simpl.
  destruct u as [url|]; [|intros H; inversion H; subst; left; auto].
  destruct hd as [h|]; [|intros H; inversion H; subst; left; auto].
  unfold asprintf_path, asprintf_handle.
  destruct (perform_post _ _ None (Some None) (Some 0) w) as [r w'] eqn:Hp.
  intros H. right. exists url, h.
  split; [reflexivity|]. split; [reflexivity|].
  assert (Hs : sent w' = sent w ++ [get_key_request url h]).
  { pose proof (perform_post_sent (url ++ "/qkd_get_key")%string
                  (handle_payload h) None (Some None) (Some 0) w) as E.
    rewrite Hp in E. exact E. }
  destruct (perform_post_key _ _ _ _ _ _ _ Hp) as [_ Hk].
  unfold set_buffer, set_pos, emptied, cell in *; simpl in *.
  destruct r as [rb rh rk rl]; simpl in *.
  destruct Hk as [[Hk Hl]|[[Hk Hl]|[bs [Hk Hl]]]]; subst rk rl; simpl in H.
  - destruct rb; inversion H; subst; auto.
  - destruct rb; inversion H; subst; auto.
  - destruct rb.
    + destruct (to_size_t (Z.of_nat (List.length bs)) =? 0) eqn:Hz;
        inversion H; subst; split; auto.
      right. split; [reflexivity|]. exists bs. split; [reflexivity|].
      apply Z.eqb_neq. exact Hz.
    + inversion H; subst; auto.
Qed.

Lemma fetch_key_wf g w rc g1 w1 :
  template_engine_fetch_key g w = (rc, g1, w1) -> wf g -> wf g1.
Proof.
  intros H Hwf.
  destruct (fetch_key_cases _ _ _ _ _ H)
    as [(_ & _ & -> & _)|(url & h & _ & _ & _ & [[_ ->]|(_ & bs & -> & Hn)])].
  - exact Hwf.
  - apply wf_emptied.
  - unfold wf; simpl.
    pose proof (to_size_t_range (Z.of_nat (List.length bs))).
    pose proof (to_size_t_le (Z.of_nat (List.length bs))).
    lia.
Qed.

(** What the refill phase of an iteration can do. *)
Lemma refill_cases g w stop g1 w1 :
  refill_if_exhausted g w = (stop, g1, w1) ->
  wf g ->
  wf g1 /\
  qkd_service_url g1 = qkd_service_url g /\
  qkd_key_handle g1 = qkd_key_handle g /\
  (stop = false -> qkd_key_buffer_pos g1 < qkd_key_buffer_len g1) /\
  (stop = true ->
   qkd_key_buffer_pos g >= qkd_key_buffer_len g /\
   (g1 = emptied g \/ (g1 = g /\ w1 = w))).
Proof.
  unfold refill_if_exhausted. intros H Hwf.
  destruct (qkd_key_buffer_pos g >=? qkd_key_buffer_len g) eqn:Hge.
  - destruct (template_engine_fetch_key g w) as [[rc g'] w'] eqn:Hf.
    pose proof (fetch_key_wf _ _ _ _ _ Hf Hwf) as Hwf'.
    destruct (fetch_key_cases _ _ _ _ _ Hf)
      as [(-> & Hnc & -> & ->)
         |(url & h & Hu & Hh & _ & [[-> ->]|(-> & bs & -> & Hn)])];
      simpl in H.
    + inversion H; subst. split; [exact Hwf|].
      rewrite Z.geb_leb in Hge. apply Z.leb_le in Hge.
      repeat split; auto; try discriminate. lia.
    + inversion H; subst. simpl. split; [apply wf_emptied|].
      rewrite Z.geb_leb in Hge. apply Z.leb_le in Hge.
      repeat split; auto; try discriminate. lia.
    + simpl in H.
      destruct (to_size_t (Z.of_nat (List.length bs)) =? 0) eqn:Hz;
        [apply Z.eqb_eq in Hz; contradiction|].
      inversion H; subst. simpl. split; [exact Hwf'|].
      repeat split; auto; try discriminate.
      intros _. pose proof (to_size_t_range (Z.of_nat (List.length bs))). lia.
  - inversion H; subst. split; [exact Hwf|].
    repeat split; auto; try discriminate.
    intros _. rewrite Z.geb_leb in Hge. apply Z.leb_gt in Hge. exact Hge.
Qed.

Lemma refill_noop g w :
  qkd_key_buffer_pos g < qkd_key_buffer_len g ->
  refill_if_exhausted g w = (false, g, w).
Proof.
  intros H. unfold refill_if_exhausted.
  rewrite Z.geb_leb.
  destruct (qkd_key_buffer_len g <=? qkd_key_buffer_pos g) eqn:E;
    [apply Z.leb_le in E; lia | reflexivity].
Qed.

(** ** Slices of the key block *)

Lemma set_pos_set_pos g x y : set_pos (set_pos g x) y = set_pos g y.
Proof. reflexivity. Qed.

Lemma wf_set_pos g k :
  wf g -> 0 <= k -> qkd_key_buffer_pos g + k <= qkd_key_buffer_len g ->
  wf (set_pos g (qkd_key_buffer_pos g + k)).
Proof. unfold wf; simpl. intros (H1 & H2 & H3) Hk Hle. repeat split; auto; lia. Qed.

Lemma firstn_plus {A} (a b : nat) (l : list A) :
  firstn (a + b) l = firstn a l ++ firstn b (skipn a l).
Proof.
  revert l. induction a as [|a IH]; intros l; simpl.
  - reflexivity.
  - destruct l as [|x l]; simpl.
    + now rewrite firstn_nil.
    + now rewrite IH.
Qed.

Lemma skipn_plus {A} (a b : nat) (l : list A) :
  skipn (a + b) l = skipn b (skipn a l).
Proof.
  revert l. induction a as [|a IH]; intros l; simpl.
  - reflexivity.
  - destruct l as [|x l]; simpl.
    + now rewrite skipn_nil.
    + apply IH.
Qed.

Lemma key_slice_split g a b :
  0 <= qkd_key_buffer_pos g -> 0 <= a -> 0 <= b ->
  key_slice g (a + b)
  = key_slice g a ++ key_slice (set_pos g (qkd_key_buffer_pos g + a)) b.
Proof.
  intros Hp Ha Hb. unfold key_slice; simpl.
  destruct (qkd_key_buffer g) as [bs|]; [|reflexivity].
  rewrite !Z2Nat.inj_add by lia.
  rewrite firstn_plus, skipn_plus. reflexivity.
Qed.

Lemma key_slice_length g k :
  wf g -> 0 <= k -> qkd_key_buffer_pos g + k <= qkd_key_buffer_len g ->
  Z.of_nat (List.length (key_slice g k)) = k.
Proof.
  unfold wf, key_slice. intros (H1 & H2 & H3) Hk Hle.
  destruct (qkd_key_buffer g) as [bs|].
  - rewrite length_firstn, length_skipn. lia.
  - simpl. lia.
Qed.

(** ** The byte stream: termination, size, splitting *)

Lemma produce_fuel_S fuel need g w r :
  produce fuel need g w = Some r -> produce (S fuel) need g w = Some r.
Proof.
  revert need g w r. induction fuel as [|f IH]; intros need g w r.
  - simpl. destruct (0 <? need); [discriminate|]. auto.
  - intros H. change (produce (S (S f)) need g w)
      with (if 0 <? need then
              let '(stop, g1, w1) := refill_if_exhausted g w in
              if stop then Some ([], false, g1, w1)
              else
                let k := Z.min (qkd_key_buffer_len g1 - qkd_key_buffer_pos g1) need in
                match produce (S f) (need - k)
                        (set_pos g1 (qkd_key_buffer_pos g1 + k)) w1 with
                | Some (out, ok, g', w') => Some (key_slice g1 k ++ out, ok, g', w')
                | None => None
                end
            else Some ([], true, g, w)).
    simpl in H.
    destruct (0 <? need); [|exact H].
    destruct (refill_if_exhausted g w) as [[stop g1] w1].
    destruct stop; [exact H|]. cbv zeta in *.
    destruct (produce f _ _ w1) as [r'|] eqn:E; [|discriminate].
    rewrite (IH _ _ _ _ E). exact H.
Qed.

Lemma produce_fuel_le fuel fuel' need g w r :
  (fuel <= fuel')%nat ->
  produce fuel need g w = Some r -> produce fuel' need g w = Some r.
Proof.
  induction 1 as [|f' _ IH]; intros H; [exact H|].
  apply produce_fuel_S. auto.
Qed.

(** [need] iterations always suffice: an iteration that goes on has copied
    at least one byte. *)
Lemma produce_terminates fuel need g w :
  wf g -> need <= Z.of_nat fuel -> produce fuel need g w <> None.
Proof.
  revert need g w. induction fuel as [|f IH]; intros need g w Hwf Hn.
  - simpl. destruct (0 <? need) eqn:E; [apply Z.ltb_lt in E; lia | discriminate].
  - simpl. destruct (0 <? need) eqn:E; [|discriminate]. apply Z.ltb_lt in E.
    destruct (refill_if_exhausted g w) as [[stop g1] w1] eqn:R.
    destruct (refill_cases _ _ _ _ _ R Hwf) as (Hwf1 & _ & _ & Hgo & _).
    destruct stop; [discriminate|]. cbv zeta.
    specialize (Hgo eq_refl).
    set (k := Z.min (qkd_key_buffer_len g1 - qkd_key_buffer_pos g1) need).
    assert (Hk : 1 <= k) by (unfold k; lia).
    assert (Hwf2 : wf (set_pos g1 (qkd_key_buffer_pos g1 + k)))
      by (apply wf_set_pos; auto; unfold k; lia).
    specialize (IH (need - k) (set_pos g1 (qkd_key_buffer_pos g1 + k)) w1 Hwf2).
    destruct (produce f (need - k) _ w1) as [[[[out ok] g'] w']|].
    + discriminate.
    + exfalso. apply IH; [lia | reflexivity].
Qed.

(** A served request returns exactly [need] bytes, a failed one fewer; the
    invariant, URL and handle are kept. *)
Lemma produce_spec fuel need g w out ok g' w' :
  produce fuel need g w = Some (out, ok, g', w') ->
  wf g ->
  wf g' /\
  qkd_service_url g' = qkd_service_url g /\
  qkd_key_handle g' = qkd_key_handle g /\
  (ok = true -> Z.of_nat (List.length out) = Z.max 0 need) /\
  (ok = false -> Z.of_nat (List.length out) < need /\
                 qkd_key_buffer_pos g' >= qkd_key_buffer_len g').
Proof.
  revert need g w out ok g' w'.
  induction fuel as [|f IH]; intros need g w out ok g' w'; simpl.
  - destruct (0 <? need) eqn:E; [discriminate|]. apply Z.ltb_ge in E.
    intros H Hwf; inversion H; subst. simpl.
    repeat split; auto; try discriminate; try apply Hwf. lia.
  - destruct (0 <? need) eqn:E.
    + apply Z.ltb_lt in E.
      destruct (refill_if_exhausted g w) as [[stop g1] w1] eqn:R.
      intros H Hwf.
      destruct (refill_cases _ _ _ _ _ R Hwf) as (Hwf1 & Hu & Hh & Hgo & Hst).
      destruct stop.
      * inversion H; subst. simpl.
        split; [exact Hwf1|]. repeat split; auto; try discriminate; try lia.
        unfold refill_if_exhausted in R.
        destruct (qkd_key_buffer_pos g >=? qkd_key_buffer_len g) eqn:Hge;
          [|discriminate].
        destruct (template_engine_fetch_key g w) as [[rc g1'] w1'] eqn:Hf.
        destruct (fetch_key_cases _ _ _ _ _ Hf)
          as [(-> & _ & -> & ->)
             |(url & h & _ & _ & _ & [[-> ->]|(-> & bs & -> & Hn)])];
          simpl in R.
        -- inversion R; subst. rewrite Z.geb_leb in Hge.
           apply Z.leb_le in Hge. lia.
        -- inversion R; subst. simpl. lia.
        -- destruct (to_size_t (Z.of_nat (List.length bs)) =? 0) eqn:Hz;
             [apply Z.eqb_eq in Hz; contradiction | discriminate].
      * cbv zeta in H. specialize (Hgo eq_refl).
        set (k := Z.min (qkd_key_buffer_len g1 - qkd_key_buffer_pos g1) need) in *.
        assert (Hk : 1 <= k <= need) by (unfold k; lia).
        assert (Hkl : qkd_key_buffer_pos g1 + k <= qkd_key_buffer_len g1)
          by (unfold k; lia).
        assert (Hwf2 : wf (set_pos g1 (qkd_key_buffer_pos g1 + k)))
          by (apply wf_set_pos; auto; lia).
        destruct (produce f (need - k) _ w1) as [[[[out1 ok1] g1'] w1']|] eqn:P;
          [|discriminate].
        inversion H; subst.
        destruct (IH _ _ _ _ _ _ _ P Hwf2) as (Hwf' & Hu' & Hh' & Hok & Hno).
        simpl in Hu', Hh'.
        assert (Hlen : Z.of_nat (List.length (key_slice g1 k)) = k)
          by (apply key_slice_length; auto; lia).
        split; [exact Hwf'|].
        split; [congruence|]. split; [congruence|].
        rewrite length_app, Nat2Z.inj_add, Hlen.
        split; intros Hb; [specialize (Hok Hb) | specialize (Hno Hb)]; lia.
    + apply Z.ltb_ge in E.
      intros H Hwf; inversion H; subst. simpl.
      repeat split; auto; try discriminate; try apply Hwf. lia.
Qed.

(** A request served in full can be cut at any point [m]: the first [m]
    bytes are what a request for [m] obtains, and the rest is what a request
    for [need - m] issued right after it obtains. *)
Lemma produce_split fuel need m g w out g' w' :
  wf g -> 0 <= m <= need ->
  produce fuel need g w = Some (out, true, g', w') ->
  exists out1 g1 w1 out2,
    produce fuel m g w = Some (out1, true, g1, w1) /\
    produce fuel (need - m) g1 w1 = Some (out2, true, g', w') /\
    out = out1 ++ out2.
Proof.
  revert need m g w out g' w'.
  induction fuel as [|f IH]; intros need m g w out g' w' Hwf Hm.
  - simpl. destruct (0 <? need) eqn:E; [discriminate|]. apply Z.ltb_ge in E.
    intros H; inversion H; subst.
    assert (m = 0) by lia. subst m.
    exists [], g', w', []. simpl.
    replace (0 <? need - 0) with false by (symmetry; apply Z.ltb_ge; lia).
    auto.
  - destruct (Z.eq_dec m 0) as [->|Hm0].
    { intros H. exists [], g, w, out. rewrite Z.sub_0_r. auto. }
    assert (E : (0 <? need) = true) by (apply Z.ltb_lt; lia).
    assert (Em : (0 <? m) = true) by (apply Z.ltb_lt; lia).
    simpl. rewrite E, Em.
    destruct (refill_if_exhausted g w) as [[stop g1] w1] eqn:R.
    destruct (refill_cases _ _ _ _ _ R Hwf) as (Hwf1 & _ & _ & Hgo & _).
    destruct stop; [discriminate|]. cbv zeta. specialize (Hgo eq_refl).
    set (rem := qkd_key_buffer_len g1 - qkd_key_buffer_pos g1).
    assert (Hp1 : 0 <= qkd_key_buffer_pos g1) by (destruct Hwf1; lia).
    destruct (produce f (need - Z.min rem need) _ w1)
      as [[[[out' ok'] g2] w2]|] eqn:P; [|discriminate].
    intros H; inversion H; subst; clear H.
    destruct (Z_le_gt_dec rem m) as [Hrm|Hrm].
    + (* the whole block goes to the first request *)
      rewrite (Z.min_l rem need) in * by lia.
      rewrite (Z.min_l rem m) by lia.
      assert (Hwf2 : wf (set_pos g1 (qkd_key_buffer_pos g1 + rem)))
        by (apply wf_set_pos; auto; unfold rem; lia).
      destruct (IH (need - rem) (m - rem) _ _ _ _ _ Hwf2 ltac:(lia) P)
        as (o1 & ga & wa & o2 & P1 & P2 & ->).
      rewrite P1.
      exists (key_slice g1 rem ++ o1), ga, wa, o2.
      split; [reflexivity|]. split; [|now rewrite app_assoc].
      apply produce_fuel_S.
      replace (need - m) with (need - rem - (m - rem)) by lia. exact P2.
    + (* the block is shared by the two requests *)
      rewrite (Z.min_r rem m) by lia.
      replace (m - m) with 0 by lia.
      assert (P0 : produce f 0 (set_pos g1 (qkd_key_buffer_pos g1 + m)) w1
                   = Some ([], true, set_pos g1 (qkd_key_buffer_pos g1 + m), w1))
        by (destruct f; reflexivity).
      rewrite P0.
      exists (key_slice g1 m ++ []), (set_pos g1 (qkd_key_buffer_pos g1 + m)), w1.
      destruct (Z.eq_dec need m) as [->|Hnm].
      * rewrite (Z.min_r rem m) in P by lia.
        replace (m - m) with 0 in * by lia.
        rewrite P0 in P. inversion P; subst.
        rewrite (Z.min_r rem m) by lia.
        exists []. split; [reflexivity|]. split; [reflexivity|].
        now rewrite !app_nil_r.
      * set (k := Z.min rem need) in *.
        exists (key_slice (set_pos g1 (qkd_key_buffer_pos g1 + m)) (k - m) ++ out').
        split; [reflexivity|]. split.
        -- replace (0 <? need - m) with true by (symmetry; apply Z.ltb_lt; lia).
           rewrite refill_noop by (simpl; unfold rem in Hrm; lia).
           cbv zeta. simpl qkd_key_buffer_len. simpl qkd_key_buffer_pos.
           rewrite set_pos_set_pos.
           replace (Z.min (qkd_key_buffer_len g1 - (qkd_key_buffer_pos g1 + m))
                          (need - m)) with (k - m) by (unfold k, rem; lia).
           replace (need - m - (k - m)) with (need - k) by lia.
           replace (qkd_key_buffer_pos g1 + m + (k - m))
             with (qkd_key_buffer_pos g1 + k) by lia.
           rewrite P. reflexivity.
        -- rewrite app_nil_r, app_assoc. f_equal.
           replace k with (m + (k - m)) at 1 by lia.
           apply key_slice_split; unfold k; lia.
Qed.

(** ** The output buffer *)

Lemma memcpy_nil buf off : memcpy buf off [] = buf.
Proof.
  unfold memcpy. simpl. rewrite Nat.add_0_r. apply firstn_skipn.
Qed.

Lemma memcpy_nat_app (n : nat) (buf s1 s2 : list byte) :
  firstn (n + List.length s1)
         (firstn n buf ++ s1 ++ skipn (n + List.length s1) buf)
    ++ s2
    ++ skipn (n + List.length s1 + List.length s2)
             (firstn n buf ++ s1 ++ skipn (n + List.length s1) buf)
  = firstn n buf ++ (s1 ++ s2) ++ skipn (n + List.length (s1 ++ s2)) buf.
Proof.
  revert buf. induction n as [|n IH]; intros buf.
  - simpl. rewrite firstn_app, firstn_all, Nat.sub_diag, firstn_O, app_nil_r.
    rewrite skipn_app, length_app, skipn_plus.
    rewrite (skipn_all2 s1) by lia.
    replace (List.length s1 + List.length s2 - List.length s1)%nat
      with (List.length s2) by lia.
    rewrite skipn_nil, skipn_plus. simpl. now rewrite <- app_assoc.
  - destruct buf as [|x buf].
    + rewrite firstn_nil, !skipn_nil. cbn [app]. rewrite !app_nil_r.
      rewrite firstn_all2 by lia. rewrite skipn_all2 by lia.
      now rewrite app_nil_r.
    + simpl. f_equal. apply IH.
Qed.

Lemma memcpy_app buf off s1 s2 :
  0 <= off ->
  memcpy (memcpy buf off s1) (off + Z.of_nat (List.length s1)) s2
  = memcpy buf off (s1 ++ s2).
Proof.
  intros Hoff. unfold memcpy.
  rewrite Z2Nat.inj_add, Nat2Z.id by lia.
  apply memcpy_nat_app.
Qed.

(** With room for the bytes, a copy changes neither the length of the
    buffer nor anything outside the range written. *)
Lemma memcpy_length buf off s :
  0 <= off -> off + Z.of_nat (List.length s) <= Z.of_nat (List.length buf) ->
  List.length (memcpy buf off s) = List.length buf.
Proof.
  intros H0 H. unfold memcpy.
  rewrite !length_app, length_firstn, length_skipn. lia.
Qed.

Lemma memcpy_0_firstn buf s :
  firstn (List.length s) (memcpy buf 0 s) = s.
Proof.
  unfold memcpy. simpl.
  rewrite firstn_app, firstn_all, Nat.sub_diag, firstn_O. apply app_nil_r.
Qed.

Lemma memcpy_0_skipn buf s :
  skipn (List.length s) (memcpy buf 0 s) = skipn (List.length s) buf.
Proof.
  unfold memcpy. simpl.
  rewrite skipn_app, Nat.sub_diag, skipn_all. reflexivity.
Qed.

(** ** The copy step and the loop *)

(** Under the invariant, and for a count that fits an [int], none of the
    conversions in the copy step changes a value. *)
Lemma copy_from_key_buffer_eq buf num bp g :
  wf g -> 0 <= bp <= num -> num <= INT_MAX ->
  copy_from_key_buffer buf num bp g
  = let k := Z.min (qkd_key_buffer_len g - qkd_key_buffer_pos g) (num - bp) in
    (memcpy buf bp (key_slice g k), bp + k,
     set_pos g (qkd_key_buffer_pos g + k)).
Proof.
  intros (Hp & Hl & _) Hb Hn. unfold copy_from_key_buffer. cbv zeta.
  unfold INT_MAX in Hn.
  assert (HS : SIZE_MOD = 18446744073709551616) by reflexivity.
  rewrite (to_size_t_small (qkd_key_buffer_len g - qkd_key_buffer_pos g)) by lia.
  rewrite (to_int_small (num - bp)) by (unfold INT_MAX; lia).
  rewrite (to_size_t_small (num - bp)) by lia.
  rewrite (to_size_t_small bp) by lia.
  set (rem := qkd_key_buffer_len g - qkd_key_buffer_pos g).
  assert (Hmin : (if num - bp <? rem then num - bp else rem) = Z.min rem (num - bp)).
  { destruct (num - bp <? rem) eqn:E;
      [apply Z.ltb_lt in E | apply Z.ltb_ge in E]; lia. }
  rewrite Hmin.
  set (k := Z.min rem (num - bp)).
  assert (Hk : 0 <= k <= num - bp /\ k <= rem) by (unfold k, rem; lia).
  rewrite (to_size_t_small (qkd_key_buffer_pos g + k)) by (unfold rem in Hk; lia).
  rewrite (to_size_t_small (bp + k)) by lia.
  rewrite (to_int_small (bp + k)) by (unfold INT_MAX; lia).
  reflexivity.
Qed.

(** The C loop computes the byte stream and stores it at
    [buf + bytes_provided]. *)
Lemma loop_produce fuel buf num bp g w :
  wf g -> 0 <= bp -> num <= INT_MAX ->
  rand_bytes_loop fuel buf num bp g w
  = match produce fuel (num - bp) g w with
    | Some (out, ok, g', w') =>
        Some (mkRand (if ok then 1
                      else if 0 <? bp + Z.of_nat (List.length out) then 1 else 0)
                     (memcpy buf bp out)
                     (bp + Z.of_nat (List.length out)) g' w')
    | None => None
    end.
Proof.
  revert buf bp g w.
  induction fuel as [|f IH]; intros buf bp g w Hwf Hb Hn.
  - simpl. destruct (bp <? num) eqn:E.
    + replace (0 <? num - bp) with true
        by (symmetry; apply Z.ltb_lt; apply Z.ltb_lt in E; lia).
      reflexivity.
    + replace (0 <? num - bp) with false
        by (symmetry; apply Z.ltb_ge; apply Z.ltb_ge in E; lia).
      simpl. now rewrite memcpy_nil, Z.add_0_r.
  - cbn [rand_bytes_loop produce]. destruct (bp <? num) eqn:E.
    + apply Z.ltb_lt in E.
      replace (0 <? num - bp) with true by (symmetry; apply Z.ltb_lt; lia).
      destruct (refill_if_exhausted g w) as [[stop g1] w1] eqn:R.
      destruct (refill_cases _ _ _ _ _ R Hwf) as (Hwf1 & _ & _ & Hgo & _).
      destruct stop.
      * simpl. now rewrite memcpy_nil, Z.add_0_r.
      * specialize (Hgo eq_refl).
        rewrite copy_from_key_buffer_eq by (auto; lia). cbv beta iota zeta.
        set (k := Z.min (qkd_key_buffer_len g1 - qkd_key_buffer_pos g1) (num - bp)).
        assert (Hk : 1 <= k <= num - bp) by (unfold k; lia).
        assert (Hkl : qkd_key_buffer_pos g1 + k <= qkd_key_buffer_len g1)
          by (unfold k; lia).
        rewrite IH by (try apply wf_set_pos; auto; lia).
        replace (num - (bp + k)) with (num - bp - k) by lia.
        destruct (produce f (num - bp - k) _ w1) as [[[[out ok] g'] w']|];
          [|reflexivity].
        assert (Hlen : Z.of_nat (List.length (key_slice g1 k)) = k)
          by (apply key_slice_length; auto; lia).
        rewrite <- (memcpy_app buf bp (key_slice g1 k) out) by lia.
        rewrite length_app, Nat2Z.inj_add, Hlen, Z.add_assoc.
        reflexivity.
    + apply Z.ltb_ge in E.
      replace (0 <? num - bp) with false by (symmetry; apply Z.ltb_ge; lia).
      simpl. now rewrite memcpy_nil, Z.add_0_r.
Qed.

Lemma produce_fuel_enough fuel fuel' need g w r :
  wf g -> need <= Z.of_nat fuel' ->
  produce fuel need g w = Some r -> produce fuel' need g w = Some r.
Proof.
  intros Hwf Hn H.
  destruct (produce fuel' need g w) as [r'|] eqn:E.
  - apply (produce_fuel_le _ (Nat.max fuel fuel')) in H; [|lia].
    apply (produce_fuel_le _ (Nat.max fuel fuel')) in E; [|lia].
    congruence.
  - exfalso. now apply (produce_terminates fuel' need g w).
Qed.

(** ** [template_engine_connect] *)

Lemma perform_post_handle url data h0 ko lo w r w1 :
  perform_post url data (Some h0) ko lo w = (r, w1) ->
  exists h, post_handle r = Some h /\ (response_body r = None -> h = h0).
Proof.
  unfold perform_post.
  destruct (curl_easy_perform (mkRequest url data) w) as [rp w'].
  destruct rp as [|code body].
  - intros H; inversion H; subst; simpl; eauto.
  - destruct (negb (code =? 200)).
    + intros H; inversion H; subst; simpl; eauto.
    + intros H; inversion H; subst; simpl.
      eexists; split; [reflexivity | discriminate].
Qed.

Lemma post_close_sent url h w :
  sent (post_close url h w) = sent w ++ [close_request url h].
Proof. unfold post_close; simpl. apply perform_post_sent. Qed.

(** Called without a handle, as [template_rand_bytes] does, a connect either
    succeeds and stores a handle, or fails and leaves the globals as they
    were; the key buffer is not touched. *)
Lemma connect_cases g w rc g1 w1 :
  template_engine_connect g w = (rc, g1, w1) ->
  qkd_key_handle g = None ->
  (rc = 0 /\ exists h, g1 = set_handle g (Some h)) \/ (rc = -1 /\ g1 = g).
Proof.
  unfold template_engine_connect.
  destruct g as [u hd kb kl kp]; simpl. intros H Hh; subst hd.
  destruct u as [url|]; [|inversion H; auto].
  unfold asprintf_path, asprintf_handle in H.
  destruct (perform_post _ _ (Some None) None None w) as [r wa] eqn:P1.
  destruct (perform_post_handle _ _ _ _ _ _ _ _ P1) as (h & Hph & Hnone).
  destruct r as [rb rh rk rl]; simpl in *. subst rh. simpl in H.
  destruct rb as [b|].
  - destruct h as [h|]; [|inversion H; auto].
    destruct (perform_post _ _ None None None wa) as [r2 wb].
    destruct (response_body r2).
    + inversion H; subst. left. split; [reflexivity|]. now exists h.
    + unfold connect_err, set_handle in H; simpl in H. inversion H; auto.
  - rewrite (Hnone eq_refl) in H. inversion H; auto.
Qed.

Lemma connect_wf g w rc g1 w1 :
  template_engine_connect g w = (rc, g1, w1) ->
  qkd_key_handle g = None -> wf g ->
  wf g1 /\ (rc = 0 -> qkd_key_handle g1 <> None).
Proof.
  intros H Hh Hwf.
  destruct (connect_cases _ _ _ _ _ H Hh) as [(-> & h & ->)|(-> & ->)].
  - split; [exact Hwf | simpl; discriminate].
  - split; [exact Hwf | discriminate].
Qed.

(** ** [template_rand_bytes] as a byte stream *)

(** With a session open, the call is the loop from offset 0. *)
Lemma rand_bytes_open buf num g w :
  qkd_key_handle g <> None -> wf g -> num <= INT_MAX ->
  exists out ok g' w',
    produce (Z.to_nat num) num g w = Some (out, ok, g', w') /\
    template_rand_bytes buf num g w
    = Some (mkRand (if ok then 1
                    else if 0 <? Z.of_nat (List.length out) then 1 else 0)
                   (memcpy buf 0 out) (Z.of_nat (List.length out)) g' w').
Proof.
  intros Hh Hwf Hn.
  destruct (produce (Z.to_nat num) num g w) as [[[[out ok] g'] w']|] eqn:P.
  - exists out, ok, g', w'. split; [reflexivity|].
    unfold template_rand_bytes.
    destruct (qkd_key_handle g); [|contradiction].
    rewrite loop_produce by (auto; lia).
    rewrite Z.sub_0_r, P. reflexivity.
  - exfalso. apply (produce_terminates (Z.to_nat num) num g w); auto. lia.
Qed.

(** Without one, it is the connect followed by the loop. *)
Lemma rand_bytes_closed buf num g w :
  qkd_key_handle g = None ->
  template_rand_bytes buf num g w
  = let '(rc, g1, w1) := template_engine_connect g w in
    if negb (rc =? 0) then Some (mkRand 0 buf 0 g1 w1)
    else rand_bytes_loop (Z.to_nat num) buf num 0 g1 w1.
Proof. intros Hh. unfold template_rand_bytes. now rewrite Hh. Qed.

(** The general shape of a call: a failed connect, or a byte stream started
    from the (possibly just connected) state [g0]. *)
Lemma rand_bytes_cases buf num g w :
  wf g -> num <= INT_MAX ->
  (exists g1 w1,
     qkd_key_handle g = None /\
     template_engine_connect g w = (-1, g1, w1) /\ g1 = g /\
     template_rand_bytes buf num g w = Some (mkRand 0 buf 0 g1 w1)) \/
  (exists g0 w0 out ok g' w',
     wf g0 /\ qkd_key_handle g0 <> None /\
     (qkd_key_handle g <> None -> g0 = g /\ w0 = w) /\
     (qkd_key_handle g = None -> template_engine_connect g w = (0, g0, w0)) /\
     produce (Z.to_nat num) num g0 w0 = Some (out, ok, g', w') /\
     template_rand_bytes buf num g w
     = Some (mkRand (if ok then 1
                     else if 0 <? Z.of_nat (List.length out) then 1 else 0)
                    (memcpy buf 0 out) (Z.of_nat (List.length out)) g' w')).
Proof.
  intros Hwf Hn.
  destruct (qkd_key_handle g) as [h|] eqn:Hh.
  - right.
    assert (Hh' : qkd_key_handle g <> None) by (rewrite Hh; discriminate).
    destruct (rand_bytes_open buf num g w Hh' Hwf Hn)
      as (out & ok & g' & w' & P & E).
    exists g, w, out, ok, g', w'.
    split; [exact Hwf|]. split; [exact Hh'|]. split; [auto|].
    split; [intros; discriminate|]. split; [exact P | exact E].
  - rewrite rand_bytes_closed by exact Hh.
    destruct (template_engine_connect g w) as [[rc g1] w1] eqn:C.
    destruct (connect_wf _ _ _ _ _ C Hh Hwf) as (Hwf1 & Hh1).
    destruct (connect_cases _ _ _ _ _ C Hh) as [(-> & h & Hg)|(-> & ->)].
    + right. simpl.
      specialize (Hh1 eq_refl).
      assert (T : template_rand_bytes buf num g1 w1
                  = rand_bytes_loop (Z.to_nat num) buf num 0 g1 w1).
      { unfold template_rand_bytes.
        destruct (qkd_key_handle g1); [reflexivity | contradiction]. }
      rewrite <- T.
      destruct (rand_bytes_open buf num g1 w1 Hh1 Hwf1 Hn)
        as (out & ok & g' & w' & P & E).
      exists g1, w1, out, ok, g', w'.
      split; [exact Hwf1|]. split; [exact Hh1|].
      split; [intros Hc; contradiction|]. split; [reflexivity|].
      split; [exact P | exact E].
    + left. exists g, w1. simpl. auto.
Qed.

(** ** The invariant holds in every state the engine reaches *)

Lemma rand_bytes_wf buf num g w r :
  wf g -> num <= INT_MAX ->
  template_rand_bytes buf num g w = Some r -> wf (rand_globals r).
Proof.
  intros Hwf Hn T.
  destruct (rand_bytes_cases buf num g w Hwf Hn)
    as [(g1 & w1 & _ & _ & -> & E)
       |(g0 & w0 & out & ok & g' & w' & Hwf0 & _ & _ & _ & P & E)];
    rewrite E in T; inversion T; subst r; simpl.
  - exact Hwf.
  - now destruct (produce_spec _ _ _ _ _ _ _ _ P Hwf0).
Qed.

Lemma close_wf g w : wf (fst (template_engine_close g w)).
Proof.
  unfold template_engine_close.
  destruct (qkd_key_handle g), (qkd_service_url g); simpl;
    unfold wf, SIZE_MOD; simpl; lia.
Qed.

Lemma ctrl_wf cmd p g : wf g -> wf (snd (template_engine_ctrl cmd p g)).
Proof.
  intros Hwf. unfold template_engine_ctrl.
  destruct (cmd =? 1); [|exact Hwf].
  destruct p; exact Hwf.
Qed.

(** ** The requests of a connect *)

(** With a URL configured the open request is always sent, and first. *)
Lemma connect_sends_open g w url :
  qkd_service_url g = Some url ->
  exists rest,
    sent (snd (template_engine_connect g w)) = sent w ++ open_request url :: rest.
Proof.
  intros Hu. unfold template_engine_connect. rewrite Hu.
  unfold asprintf_path, asprintf_handle.
  destruct (perform_post _ _ (Some (qkd_key_handle g)) None None w)
    as [r w1] eqn:P1.
  assert (S1 : sent w1 = sent w ++ [open_request url]).
  { pose proof (perform_post_sent (url ++ "/qkd_open")%string "{}"%string
                  (Some (qkd_key_handle g)) None None w) as E.
    rewrite P1 in E. exact E. }
  destruct (response_body r);
    [|exists []; simpl; exact S1].
  destruct (qkd_key_handle (set_handle g _)) as [h|] eqn:Hh;
    [|exists []; simpl; exact S1].
  destruct (perform_post _ _ None None None w1) as [r2 w2] eqn:P2.
  assert (S2 : sent w2 = sent w ++ [open_request url; connect_request url h]).
  { pose proof (perform_post_sent (url ++ "/qkd_connect_blocking")%string
                  (handle_payload h) None None None w1) as E.
    rewrite P2 in E. simpl in E. rewrite E, S1, <- app_assoc. reflexivity. }
  destruct (response_body r2).
  - exists [connect_request url h]. exact S2.
  - unfold connect_err. rewrite Hh. simpl.
    exists [connect_request url h; close_request url h].
    rewrite post_close_sent, S2, <- app_assoc. reflexivity.
Qed.

(** A connect that succeeds has sent the open request and the confirmation
    request, and nothing else. *)
Lemma connect_success_requests g w g1 w1 :
  template_engine_connect g w = (0, g1, w1) ->
  exists url h,
    qkd_service_url g = Some url /\ qkd_key_handle g1 = Some h /\
    sent w1 = sent w ++ [open_request url; connect_request url h].
Proof.
  unfold template_engine_connect.
  destruct (qkd_service_url g) as [url|]; [|discriminate].
  unfold asprintf_path, asprintf_handle.
  destruct (perform_post _ _ (Some (qkd_key_handle g)) None None w)
    as [r wa] eqn:P1.
  assert (S1 : sent wa = sent w ++ [open_request url]).
  { pose proof (perform_post_sent (url ++ "/qkd_open")%string "{}"%string
                  (Some (qkd_key_handle g)) None None w) as E.
    rewrite P1 in E. exact E. }
  destruct (response_body r); [|discriminate].
  destruct (qkd_key_handle (set_handle g _)) as [h|] eqn:Hh; [|discriminate].
  destruct (perform_post _ _ None None None wa) as [r2 wb] eqn:P2.
  assert (S2 : sent wb = sent w ++ [open_request url; connect_request url h]).
  { pose proof (perform_post_sent (url ++ "/qkd_connect_blocking")%string
                  (handle_payload h) None None None wa) as E.
    rewrite P2 in E. simpl in E. rewrite E, S1, <- app_assoc. reflexivity. }
  destruct (response_body r2).
  - intros H; inversion H; subst. exists url, h. auto.
  - unfold connect_err. rewrite Hh. discriminate.
Qed.

(** ** Key material: what a fetch installs and what the loop hands out *)

Lemma leftover_exhausted g :
  qkd_key_buffer_pos g >= qkd_key_buffer_len g -> leftover g = [].
Proof.
  intros H. unfold leftover, key_slice.
  destruct (qkd_key_buffer g); [|reflexivity].
  replace (Z.to_nat (qkd_key_buffer_len g - qkd_key_buffer_pos g)) with 0%nat
    by lia.
  reflexivity.
Qed.

(** What a fetch leaves in the buffer is the block of the reply it used. *)
Lemma fetch_key_block g w rc g1 w1 :
  template_engine_fetch_key g w = (rc, g1, w1) ->
  qkd_service_url g <> None -> qkd_key_handle g <> None ->
  replies w1 = skipn 1 (replies w) /\
  leftover g1 = List.concat (map reply_block (firstn 1 (replies w))).
Proof.
  unfold template_engine_fetch_key.
  destruct g as [u hd kb kl kp]; simpl.
  destruct u as [url|]; [|intros _ H; contradiction].
  destruct hd as [h|]; [|intros _ _ H; contradiction].
  unfold asprintf_path, asprintf_handle, perform_post, curl_easy_perform.
  simpl.
  destruct (replies w) as [|r rest]; simpl.
  { intros H _ _; inversion H; subst. auto. }
  destruct r as [|code body]; simpl.
  { intros H _ _; inversion H; subst. auto. }
  destruct (code =? 200); simpl.
  2:{ intros H _ _; inversion H; subst. auto. }
  destruct (strstr body key_buffer_name) as [p|]; simpl.
  2:{ intros H _ _; inversion H; subst. auto. }
  destruct (quoted_value_after p) as [b64|]; simpl.
  2:{ intros H _ _; inversion H; subst. auto. }
  destruct (EVP_DecodeBlock b64) as [bs|]; simpl.
  2:{ intros H _ _; inversion H; subst. auto. }
  destruct (to_int (to_size_t (Z.of_nat (List.length bs))) <? 0); simpl.
  { intros H _ _; inversion H; subst. auto. }
  destruct (to_size_t (Z.of_nat (List.length bs)) =? 0) eqn:Ez; simpl.
  - apply Z.eqb_eq in Ez. rewrite Ez.
    intros H _ _; inversion H; subst. auto.
  - intros H _ _; inversion H; subst. split; [reflexivity|].
    unfold leftover, key_slice. simpl.
    now rewrite Z.sub_0_r, app_nil_r.
Qed.

(** A refill uses one reply, or none: when the block is not used up, and
    when the fetch is refused for want of a URL. *)
Lemma refill_block g w stop g1 w1 :
  refill_if_exhausted g w = (stop, g1, w1) ->
  exists n,
    replies w1 = skipn n (replies w) /\
    leftover g1 = leftover g ++ List.concat (map reply_block (firstn n (replies w))).
Proof.
  unfold refill_if_exhausted. intros H.
  destruct (qkd_key_buffer_pos g >=? qkd_key_buffer_len g) eqn:Hge.
  - destruct (template_engine_fetch_key g w) as [[rc g'] w'] eqn:F.
    rewrite Z.geb_leb in Hge. apply Z.leb_le in Hge.
    assert (g1 = g' /\ w1 = w') as [-> ->].
    { destruct (negb (rc =? 0)); [inversion H; auto|].
      destruct (qkd_key_buffer_len g' =? 0); inversion H; auto. }
    destruct (fetch_key_cases _ _ _ _ _ F)
      as [(_ & _ & -> & ->)|(url & h & Hu & Hh & _)].
    + exists 0%nat. simpl. now rewrite app_nil_r.
    + destruct (fetch_key_block _ _ _ _ _ F) as (Hr & Hl);
        [rewrite Hu; discriminate | rewrite Hh; discriminate |].
      exists 1%nat. split; [exact Hr|].
      rewrite (leftover_exhausted g) by lia. exact Hl.
  - inversion H; subst. exists 0%nat. simpl. now rewrite app_nil_r.
Qed.

(** Every byte of key material counts once: what the loop hands out,
    followed by what it leaves in the buffer, is what was in the buffer
    followed by the blocks of the replies it has used. *)
Lemma produce_conserves fuel need g w out ok g' w' :
  produce fuel need g w = Some (out, ok, g', w') ->
  wf g ->
  exists n,
    replies w' = skipn n (replies w) /\
    out ++ leftover g'
    = leftover g ++ List.concat (map reply_block (firstn n (replies w))).
Proof.
  revert need g w out ok g' w'.
  induction fuel as [|f IH]; intros need g w out ok g' w'; simpl.
  - destruct (0 <? need); [discriminate|].
    intros H _; inversion H; subst.
    exists 0%nat. simpl. now rewrite app_nil_r.
  - destruct (0 <? need) eqn:E.
    + apply Z.ltb_lt in E.
      destruct (refill_if_exhausted g w) as [[stop g1] w1] eqn:R.
      intros H Hwf.
      destruct (refill_cases _ _ _ _ _ R Hwf) as (Hwf1 & _ & _ & Hgo & _).
      destruct (refill_block _ _ _ _ _ R) as (n0 & Hr0 & Hl0).
      destruct stop.
      * inversion H; subst. exists n0. simpl. auto.
      * cbv zeta in H. specialize (Hgo eq_refl).
        set (k := Z.min (qkd_key_buffer_len g1 - qkd_key_buffer_pos g1) need) in *.
        assert (Hk : 1 <= k <= need) by (unfold k; lia).
        assert (Hkl : qkd_key_buffer_pos g1 + k <= qkd_key_buffer_len g1)
          by (unfold k; lia).
        assert (Hwf2 : wf (set_pos g1 (qkd_key_buffer_pos g1 + k)))
          by (apply wf_set_pos; auto; lia).
        destruct (produce f (need - k) _ w1) as [[[[out1 ok1] g1'] w1']|] eqn:P;
          [|discriminate].
        inversion H; subst.
        destruct (IH _ _ _ _ _ _ _ P Hwf2) as (n & Hr & Hl).
        exists (n0 + n)%nat. split.
        -- rewrite skipn_plus, <- Hr0. exact Hr.
        -- assert (Hsplit : leftover g1
                            = key_slice g1 k
                              ++ leftover (set_pos g1 (qkd_key_buffer_pos g1 + k))).
           { unfold leftover at 1.
             replace (qkd_key_buffer_len g1 - qkd_key_buffer_pos g1)
               with (k + (qkd_key_buffer_len g1 - qkd_key_buffer_pos g1 - k))
               by lia.
             rewrite key_slice_split by (destruct Hwf1; lia).
             f_equal. unfold leftover. simpl. f_equal. lia. }
           rewrite firstn_plus, map_app, concat_app, <- Hr0.
           rewrite app_assoc, <- Hl0, Hsplit.
           rewrite <- !app_assoc. f_equal. exact Hl.
    + intros H _; inversion H; subst.
      exists 0%nat. simpl. now rewrite app_nil_r.
Qed.

(** The outcome of a fetch is fixed by the block of the reply it obtains:
    no block empties the buffer, a block is installed at position 0. *)
Lemma fetch_key_reply g w url h :
  qkd_service_url g = Some url -> qkd_key_handle g = Some h ->
  (reply_block (next_reply w) = [] ->
   template_engine_fetch_key g w
   = (-1, emptied g,
      mkWorld (tl (replies w)) (sent w ++ [get_key_request url h]))) /\
  (reply_block (next_reply w) <> [] ->
   exists bs,
     template_engine_fetch_key g w
     = (0, mkGlobals (Some url) (Some h) (Some bs)
             (Z.of_nat (List.length (reply_block (next_reply w)))) 0,
        mkWorld (tl (replies w)) (sent w ++ [get_key_request url h])) /\
     firstn (List.length (reply_block (next_reply w))) bs
     = reply_block (next_reply w)).
Proof.
  destruct g as [u hd kb kl kp]; simpl. intros -> ->.
  unfold template_engine_fetch_key, asprintf_path, asprintf_handle,
    perform_post, curl_easy_perform, next_reply, get_key_request, emptied.
  simpl.
  destruct (replies w) as [|r rest]; simpl.
  { split; [reflexivity | intros H; contradiction]. }
  destruct r as [|code body]; simpl.
  { split; [reflexivity | intros H; contradiction]. }
  destruct (code =? 200); simpl.
  2:{ split; [reflexivity | intros H; contradiction]. }
  destruct (strstr body key_buffer_name) as [p|]; simpl.
  2:{ split; [reflexivity | intros H; contradiction]. }
  destruct (quoted_value_after p) as [b64|]; simpl.
  2:{ split; [reflexivity | intros H; contradiction]. }
  destruct (EVP_DecodeBlock b64) as [bs|]; simpl.
  2:{ split; [reflexivity | intros H; contradiction]. }
  pose proof (to_size_t_range (Z.of_nat (List.length bs))) as Hrg.
  pose proof (to_size_t_le (Z.of_nat (List.length bs))) as Hle.
  destruct (to_int (to_size_t (Z.of_nat (List.length bs))) <? 0); simpl.
  { split; [reflexivity | intros H; contradiction]. }
  assert (Hlen : Z.of_nat (List.length
                   (firstn (Z.to_nat (to_size_t (Z.of_nat (List.length bs)))) bs))
                 = to_size_t (Z.of_nat (List.length bs)))
    by (rewrite length_firstn; lia).
  destruct (to_size_t (Z.of_nat (List.length bs)) =? 0) eqn:Ez; simpl.
  - apply Z.eqb_eq in Ez. rewrite Ez. simpl.
    split; [reflexivity | intros H; contradiction].
  - apply Z.eqb_neq in Ez. split.
    + intros E. rewrite E in Hlen. simpl in Hlen. lia.
    + intros _. exists bs. split; [now rewrite Hlen|].
      f_equal. lia.
Qed.


(** Two requests put end to end: when the first is served in full, a single
    request for both counts obtains the bytes of the first followed by the
    bytes of the second, with the outcome and the final state of the
    second. *)
Lemma produce_join f1 f2 a b g w out1 g1 w1 out2 ok g' w' :
  wf g -> 0 <= a -> 0 <= b ->
  produce f1 a g w = Some (out1, true, g1, w1) ->
  produce f2 b g1 w1 = Some (out2, ok, g', w') ->
  produce (f1 + f2) (a + b) g w = Some (out1 ++ out2, ok, g', w').
Proof.
  revert a g w out1.
  induction f1 as [|f IH]; intros a g w out1 Hwf Ha Hb H1 H2.
  - simpl in H1. destruct (0 <? a) eqn:E; [discriminate|].
    apply Z.ltb_ge in E. assert (a = 0) by lia. subst a.
    inversion H1; subst. exact H2.
  - destruct (Z.eq_dec a 0) as [->|Ha0].
    { simpl in H1. inversion H1; subst. simpl app.
      apply (produce_fuel_le f2); [lia | exact H2]. }
    assert (Ea : (0 <? a) = true) by (apply Z.ltb_lt; lia).
    assert (Eab : (0 <? a + b) = true) by (apply Z.ltb_lt; lia).
    cbn [produce] in H1. rewrite Ea in H1.
    change (S f + f2)%nat with (S (f + f2)). cbn [produce]. rewrite Eab.
    destruct (refill_if_exhausted g w) as [[stop gr] wr] eqn:R.
    destruct (refill_cases _ _ _ _ _ R Hwf) as (Hwfr & _ & _ & Hgo & _).
    destruct stop; [discriminate|]. cbv zeta in *. specialize (Hgo eq_refl).
    set (rem := qkd_key_buffer_len gr - qkd_key_buffer_pos gr) in *.
    assert (Hpr : 0 <= qkd_key_buffer_pos gr) by (destruct Hwfr; lia).
    destruct (produce f (a - Z.min rem a) _ wr)
      as [[[[o ok1] ga] wa]|] eqn:P; [|discriminate].
    injection H1 as E1 E2 E3 E4. subst out1 ok1 ga wa.
    destruct (Z_le_gt_dec rem a) as [Hra|Hra].
    + (* the block goes to the first request as a whole *)
      rewrite (Z.min_l rem a) in P by lia.
      rewrite (Z.min_l rem (a + b)) by lia.
      rewrite (Z.min_l rem a) by lia.
      assert (Hwf2 : wf (set_pos gr (qkd_key_buffer_pos gr + rem)))
        by (apply wf_set_pos; auto; unfold rem; lia).
      replace (a + b - rem) with (a - rem + b) by lia.
      assert (Har : 0 <= a - rem) by lia.
      rewrite (IH _ _ _ _ Hwf2 Har Hb P H2).
      now rewrite app_assoc.
    + (* the block is shared by the two requests *)
      rewrite (Z.min_r rem a) in P by lia.
      rewrite (Z.min_r rem a) by lia.
      replace (a - a) with 0 in P by lia.
      assert (P0 : produce f 0 (set_pos gr (qkd_key_buffer_pos gr + a)) wr
                   = Some ([], true, set_pos gr (qkd_key_buffer_pos gr + a), wr))
        by (destruct f; reflexivity).
      rewrite P0 in P. injection P as E1 E2 E3. subst o g1 w1.
      rewrite app_nil_r.
      destruct (Z.eq_dec b 0) as [->|Hb0].
      * assert (P2 : produce f2 0 (set_pos gr (qkd_key_buffer_pos gr + a)) wr
                     = Some ([], true, set_pos gr (qkd_key_buffer_pos gr + a), wr))
          by (destruct f2; reflexivity).
        rewrite P2 in H2. injection H2 as E1 E2 E3 E4. subst out2 ok g' w'.
        rewrite Z.add_0_r, (Z.min_r rem a) by lia.
        replace (a - a) with 0 by lia.
        assert (P3 : produce (f + f2) 0 (set_pos gr (qkd_key_buffer_pos gr + a)) wr
                     = Some ([], true, set_pos gr (qkd_key_buffer_pos gr + a), wr))
          by (destruct (f + f2)%nat; reflexivity).
        rewrite P3. reflexivity.
      * assert (Eb : (0 <? b) = true) by (apply Z.ltb_lt; lia).
        destruct f2 as [|f2']; [simpl in H2; rewrite Eb in H2; discriminate|].
        cbn [produce] in H2. rewrite Eb in H2.
        rewrite refill_noop in H2 by (simpl; unfold rem in Hra; lia).
        cbv zeta in H2. simpl qkd_key_buffer_len in H2.
        simpl qkd_key_buffer_pos in H2. rewrite set_pos_set_pos in H2.
        set (k2 := Z.min (qkd_key_buffer_len gr - (qkd_key_buffer_pos gr + a)) b)
          in *.
        destruct (produce f2' (b - k2) _ wr)
          as [[[[o2 ok2] gb] wb]|] eqn:P2; [|discriminate].
        injection H2 as E1 E2 E3 E4. subst out2 ok2 gb wb.
        replace (Z.min rem (a + b)) with (a + k2) by (unfold k2, rem; lia).
        replace (a + b - (a + k2)) with (b - k2) by lia.
        replace (qkd_key_buffer_pos gr + (a + k2))
          with (qkd_key_buffer_pos gr + a + k2) by lia.
        assert (Hf : (f2' <= f + S f2')%nat) by lia.
        rewrite (produce_fuel_le f2' (f + S f2') _ _ _ _ Hf P2).
        rewrite key_slice_split by (unfold k2; lia).
        now rewrite app_assoc.
Qed.

(** * Properties of the specification *)

(** C2 (as amended).  A fetch is refused before any request when the URL or
    the handle is missing: it returns -1 and nothing changes.  Otherwise it
    sends one request, and the reply decides.  A reply that fails (refused
    transfer, status other than 200) or carries no block, or an empty one,
    gives -1 and leaves the key buffer emptied: block released, length and
    position 0, nothing left to read, whatever block and read position
    there were.  Only a reply with a non-empty block gives 0, and that block
    is installed at position 0.  A failed refill therefore does not keep the
    previous contents and read position.  The reply carries a body if its
    status is 200. *)
Theorem fetch_key_failure_empties_buffer g w :
  body_received (next_reply w) = true ->
  (qkd_service_url g = None \/ qkd_key_handle g = None ->
   template_engine_fetch_key g w = (-1, g, w)) /\
  (forall url h,
     qkd_service_url g = Some url -> qkd_key_handle g = Some h ->
     (reply_block (next_reply w) = [] ->
      template_engine_fetch_key g w
      = (-1, emptied g,
         mkWorld (tl (replies w)) (sent w ++ [get_key_request url h])) /\
      qkd_key_buffer (emptied g) = None /\
      qkd_key_buffer_len (emptied g) - qkd_key_buffer_pos (emptied g) = 0) /\
     (reply_block (next_reply w) <> [] ->
      exists g1,
        template_engine_fetch_key g w
        = (0, g1,
           mkWorld (tl (replies w)) (sent w ++ [get_key_request url h])) /\
        qkd_key_buffer_pos g1 = 0 /\
        leftover g1 = reply_block (next_reply w))) /\
  reply_block CurlError = [] /\
  (forall code body, code <> 200 -> reply_block (Http code body) = []) /\
  (forall body,
     strstr body key_buffer_name = None -> reply_block (Http 200 body) = []) /\
  (forall body p b64,
     strstr body key_buffer_name = Some p ->
     quoted_value_after p = Some b64 ->
     EVP_DecodeBlock b64 = Some [] -> reply_block (Http 200 body) = []).
Proof.
  intros _. split; [|split; [|split; [|split; [|split]]]].
  - unfold template_engine_fetch_key.
    intros [H|H]; rewrite H; [reflexivity|].
    destruct (qkd_service_url g); reflexivity.
  - intros url h Hu Hh.
    destruct (fetch_key_reply g w url h Hu Hh) as [Hempty Hblock].
    split.
    + intros E. split; [exact (Hempty E)|]. split; reflexivity.
    + intros E. destruct (Hblock E) as (bs & F & Hbs).
      eexists. split; [exact F|]. split; [reflexivity|].
      unfold leftover, key_slice. simpl.
      rewrite Z.sub_0_r, Nat2Z.id. exact Hbs.
  - reflexivity.
  - intros code body Hc. simpl.
    now replace (code =? 200) with false by (symmetry; apply Z.eqb_neq; exact Hc).
  - intros body Hs. simpl. now rewrite Hs.
  - intros body p b64 Hs Hq Hd. simpl. now rewrite Hs, Hq, Hd.
Qed.

(** C3 (as amended).  The session keeps no copy of the endpoint: every fetch
    builds its URL from the global that [QKD_SERVICE_URL] overwrites.  After
    the URL of an open session is changed from [url] to [u'], the handle
    obtained at open time is kept, and the next fetch request carries that
    handle to [u'], where it would have gone to [url]; the two requests are
    the same only if the two addresses are. *)
Theorem fetch_uses_current_url g w url h u' :
  qkd_service_url g = Some url -> qkd_key_handle g = Some h ->
  fst (template_engine_ctrl 1 (Some u') g) = 1 /\
  qkd_key_handle (snd (template_engine_ctrl 1 (Some u') g)) = Some h /\
  sent (snd (template_engine_fetch_key
               (snd (template_engine_ctrl 1 (Some u') g)) w))
    = sent w ++ [get_key_request u' h] /\
  sent (snd (template_engine_fetch_key g w))
    = sent w ++ [get_key_request url h] /\
  (get_key_request u' h = get_key_request url h -> u' = url).
Proof.
  intros Hu Hh.
  unfold template_engine_ctrl, strdup. simpl.
  split; [reflexivity|]. split; [exact Hh|]. split; [|split].
  - destruct (template_engine_fetch_key (set_url g (Some u')) w)
      as [[rc g1] w1] eqn:F.
    destruct (fetch_key_cases _ _ _ _ _ F)
      as [(_ & [Hc|Hc] & _)|(url1 & h1 & Hu1 & Hh1 & Hs & _)]; simpl in *;
      congruence.
  - destruct (template_engine_fetch_key g w) as [[rc g1] w1] eqn:F.
    destruct (fetch_key_cases _ _ _ _ _ F)
      as [(_ & [Hc|Hc] & _)|(url1 & h1 & Hu1 & Hh1 & Hs & _)]; simpl in *;
      congruence.
  - unfold get_key_request. intros E. inversion E as [E1].
    now apply append_inj_l in E1.
Qed.

(** C5.  When the open request has returned the handle [h] and the
    confirmation round-trip fails, the connect posts a close request that
    carries [h], clears the handle, and returns -1 whatever the service
    answers to the close. *)
Theorem connect_confirmation_failure_cleanup g w url h r1 w1 r2 w2 :
  qkd_service_url g = Some url ->
  perform_post (url ++ "/qkd_open")%string "{}"%string
               (Some (qkd_key_handle g)) None None w = (r1, w1) ->
  response_body r1 <> None ->
  post_handle r1 = Some (Some h) ->
  perform_post (url ++ "/qkd_connect_blocking")%string (handle_payload h)
               None None None w1 = (r2, w2) ->
  response_body r2 = None ->
  template_engine_connect g w
    = (-1, set_handle g None, post_close url h w2) /\
  qkd_key_handle (set_handle g None) = None /\
  sent (post_close url h w2)
    = sent w ++ [open_request url; connect_request url h; close_request url h].
Proof.
  intros Hu P1 Hb Hh P2 Hb2.
  split; [|split; [reflexivity|]].
  - unfold template_engine_connect. rewrite Hu.
    unfold asprintf_path, asprintf_handle. rewrite P1.
    destruct r1 as [rb rh rk rl]; simpl in *. subst rh. simpl.
    destruct rb as [b|]; [|contradiction].
    rewrite P2, Hb2. reflexivity.
  - rewrite post_close_sent.
    pose proof (perform_post_sent (url ++ "/qkd_open")%string "{}"%string
                  (Some (qkd_key_handle g)) None None w) as S1.
    pose proof (perform_post_sent (url ++ "/qkd_connect_blocking")%string
                  (handle_payload h) None None None w1) as S2.
    rewrite P1 in S1. rewrite P2 in S2. simpl in S1, S2.
    rewrite S2, S1, <- !app_assoc. reflexivity.
Qed.

(** C6.  When the connect attempted by [template_rand_bytes] fails, at the
    open request, at the parsing of the handle or at the confirmation, the
    call returns 0, the caller's buffer is as it was, no byte is counted as
    provided, the globals are unchanged and no handle is kept. *)
Theorem rand_bytes_open_failure buf num g w rc g1 w1 :
  qkd_key_handle g = None ->
  template_engine_connect g w = (rc, g1, w1) ->
  rc <> 0 ->
  template_rand_bytes buf num g w = Some (mkRand 0 buf 0 g1 w1) /\
  g1 = g /\ qkd_key_handle g1 = None.
Proof.
  intros Hh C Hrc.
  rewrite rand_bytes_closed by exact Hh. rewrite C.
  destruct (connect_cases _ _ _ _ _ C Hh) as [(-> & _)|(-> & ->)].
  - contradiction.
  - simpl. auto.
Qed.

(** C8.  A 200 reply whose ["key_buffer"] field decodes to zero bytes makes
    the fetch return -1; the block is not installed: the buffer pointer is
    NULL and the length 0 afterwards. *)
Theorem fetch_key_rejects_empty_block g w url h body rest p b64 :
  qkd_service_url g = Some url -> qkd_key_handle g = Some h ->
  replies w = Http 200 body :: rest ->
  strstr body key_buffer_name = Some p ->
  quoted_value_after p = Some b64 ->
  EVP_DecodeBlock b64 = Some [] ->
  template_engine_fetch_key g w
    = (-1, emptied g, mkWorld rest (sent w ++ [get_key_request url h])) /\
  qkd_key_buffer (emptied g) = None /\ qkd_key_buffer_len (emptied g) = 0.
Proof.
  intros Hu Hh Hr Hs Hq Hd.
  split; [|split; reflexivity].
  unfold template_engine_fetch_key. rewrite Hu, Hh.
  unfold asprintf_path, asprintf_handle, perform_post, curl_easy_perform.
  rewrite Hr. simpl. rewrite Hs, Hq, Hd. simpl.
  unfold emptied. simpl. reflexivity.
Qed.

(** C10.  Called for zero bytes without a session, [template_rand_bytes]
    first runs the connect and only then looks at the count: it returns 0
    when the connect fails and 1 when it succeeds, with the buffer untouched
    and nothing provided in both cases.  With a URL configured the open
    request is sent, and a successful connect has made both round-trips,
    open and confirmation. *)
Theorem rand_bytes_zero_connects_first buf g w :
  qkd_key_handle g = None ->
  template_rand_bytes buf 0 g w
  = Some (mkRand (if fst (fst (template_engine_connect g w)) =? 0 then 1 else 0)
                 buf 0
                 (snd (fst (template_engine_connect g w)))
                 (snd (template_engine_connect g w))) /\
  (forall url,
     qkd_service_url g = Some url ->
     exists rest,
       sent (snd (template_engine_connect g w))
       = sent w ++ open_request url :: rest) /\
  (fst (fst (template_engine_connect g w)) = 0 ->
   exists url h,
     sent (snd (template_engine_connect g w))
     = sent w ++ [open_request url; connect_request url h]).
Proof.
  intros Hh. split; [|split].
  - rewrite rand_bytes_closed by exact Hh.
    destruct (template_engine_connect g w) as [[rc g1] w1]. simpl.
    destruct (rc =? 0); reflexivity.
  - intros url Hu. now apply connect_sends_open.
  - destruct (template_engine_connect g w) as [[rc g1] w1] eqn:C. simpl.
    intros ->.
    destruct (connect_success_requests _ _ _ _ C) as (url & h & _ & _ & S).
    now exists url, h.
Qed.


(** C4 (as amended).  Whenever the request for [a] bytes is served in full,
    the request for [b] bytes that follows it and a single request for
    [a + b] bytes obtain the same bytes from the same replies, whatever the
    outcome of the second request: the single request provides [a] bytes
    more than the second, these are the [a] bytes of the first followed by
    the bytes of the second, both runs end in the same state, block position
    included, and the single request returns 1 exactly when the second does
    or [a] is not 0.  The first request is served in full whenever the
    single request is. *)
Theorem rand_bytes_concatenation buf buf1 buf2 a b g w :
  wf g -> 0 <= a -> 0 <= b -> a + b <= INT_MAX ->
  (forall r1,
     template_rand_bytes buf1 a g w = Some r1 ->
     rand_ret r1 = 1 -> rand_provided r1 = a ->
     exists r2 r,
       template_rand_bytes buf2 b (rand_globals r1) (rand_world r1) = Some r2 /\
       template_rand_bytes buf (a + b) g w = Some r /\
       rand_provided r = a + rand_provided r2 /\
       firstn (Z.to_nat a) (rand_buf r1)
         ++ firstn (Z.to_nat (rand_provided r2)) (rand_buf r2)
       = firstn (Z.to_nat (rand_provided r)) (rand_buf r) /\
       rand_globals r = rand_globals r2 /\ rand_world r = rand_world r2 /\
       (rand_ret r = 1 <-> rand_ret r2 = 1 \/ 0 < a)) /\
  (forall r,
     template_rand_bytes buf (a + b) g w = Some r ->
     rand_ret r = 1 -> rand_provided r = a + b ->
     exists r1,
       template_rand_bytes buf1 a g w = Some r1 /\
       rand_ret r1 = 1 /\ rand_provided r1 = a).
Proof.
  intros Hwf Ha Hb Hn.
  assert (Hna : a <= INT_MAX) by lia.
  (* the first and the single request start their loops in the same state *)
  assert (Hsame : forall g0 w0 g0' w0',
            (qkd_key_handle g <> None -> g0 = g /\ w0 = w) ->
            (qkd_key_handle g = None ->
             template_engine_connect g w = (0, g0, w0)) ->
            (qkd_key_handle g <> None -> g0' = g /\ w0' = w) ->
            (qkd_key_handle g = None ->
             template_engine_connect g w = (0, g0', w0')) ->
            g0' = g0 /\ w0' = w0).
  { intros g0 w0 g0' w0' Hopen Hclosed Hopen' Hclosed'.
    destruct (qkd_key_handle g) eqn:Hh.
    - destruct Hopen as [-> ->]; [discriminate|].
      destruct Hopen' as [-> ->]; [discriminate|]. auto.
    - specialize (Hclosed eq_refl). specialize (Hclosed' eq_refl).
      rewrite Hclosed in Hclosed'. inversion Hclosed'. auto. }
  split.
  - intros r1 T1 Hret1 Hprov1.
    destruct (rand_bytes_cases buf1 a g w Hwf Hna)
      as [(g1 & w1 & _ & _ & _ & E1)
         |(g0 & w0 & out1 & ok1 & ga & wa
           & Hwf0 & Hh0 & Hopen & Hclosed & P1 & E1)];
      rewrite E1 in T1; inversion T1; subst r1; simpl in *; [discriminate|].
    destruct (produce_spec _ _ _ _ _ _ _ _ P1 Hwf0)
      as (Hwfa & _ & Hha & Hok1 & Hno1).
    destruct ok1; [clear Hno1 | specialize (Hno1 eq_refl); lia].
    specialize (Hok1 eq_refl).
    (* the second call finds the session open *)
    assert (Hhga : qkd_key_handle ga <> None) by (rewrite Hha; exact Hh0).
    assert (Hnb : b <= INT_MAX) by lia.
    destruct (rand_bytes_open buf2 b ga wa Hhga Hwfa Hnb)
      as (out2 & ok2 & g' & w' & P2 & E2).
    pose proof (produce_join _ _ _ _ _ _ _ _ _ _ _ _ _ Hwf0 Ha Hb P1 P2) as PJ.
    rewrite <- Z2Nat.inj_add in PJ by lia.
    (* the single call *)
    destruct (rand_bytes_cases buf (a + b) g w Hwf Hn)
      as [(g1 & w1 & Hh & C & _ & _)
         |(g0' & w0' & o & k & gx & wx & _ & _ & Hopen' & Hclosed' & P' & E')].
    { rewrite (Hclosed Hh) in C. discriminate. }
    destruct (Hsame g0 w0 g0' w0' Hopen Hclosed Hopen' Hclosed') as [-> ->].
    rewrite PJ in P'. injection P' as <- <- <- <-.
    eexists; eexists. split; [exact E2|]. split; [exact E'|]. simpl.
    rewrite length_app, !Nat2Z.id.
    replace (Z.to_nat a) with (List.length out1) by lia.
    split; [lia|]. split.
    { rewrite <- length_app. now rewrite !memcpy_0_firstn. }
    split; [reflexivity|]. split; [reflexivity|].
    destruct ok2; [tauto|].
    destruct (0 <? Z.of_nat (List.length out2)) eqn:L2.
    + replace (0 <? Z.of_nat (List.length out1 + List.length out2)) with true
        by (symmetry; apply Z.ltb_lt; apply Z.ltb_lt in L2; lia).
      tauto.
    + apply Z.ltb_ge in L2.
      destruct (0 <? Z.of_nat (List.length out1 + List.length out2)) eqn:L.
      * apply Z.ltb_lt in L. split; [intros _; right; lia | reflexivity].
      * apply Z.ltb_ge in L. split; [discriminate|].
        intros [H|H]; [discriminate | lia].
  - intros r T Hret Hprov.
    destruct (rand_bytes_cases buf (a + b) g w Hwf Hn)
      as [(g1 & w1 & _ & _ & _ & E)
         |(g0 & w0 & out & ok & g' & w'
           & Hwf0 & Hh0 & Hopen & Hclosed & P & E)];
      rewrite E in T; inversion T; subst r; simpl in *; [discriminate|].
    destruct (produce_spec _ _ _ _ _ _ _ _ P Hwf0) as (_ & _ & _ & Hok & Hno).
    destruct ok; [clear Hno | specialize (Hno eq_refl); lia].
    assert (Hm : 0 <= a <= a + b) by lia.
    destruct (produce_split _ (a + b) a _ _ _ _ _ Hwf0 Hm P)
      as (out1 & ga & wa & out2 & P1 & _ & ->).
    destruct (produce_spec _ _ _ _ _ _ _ _ P1 Hwf0) as (_ & _ & _ & Hok1 & _).
    specialize (Hok1 eq_refl).
    apply (produce_fuel_enough _ (Z.to_nat a)) in P1; [|exact Hwf0|lia].
    destruct (rand_bytes_cases buf1 a g w Hwf Hna)
      as [(g1 & w1 & Hh & C & _ & _)
         |(g0' & w0' & o & k & gx & wx & _ & _ & Hopen' & Hclosed' & P' & E')].
    { rewrite (Hclosed Hh) in C. discriminate. }
    destruct (Hsame g0 w0 g0' w0' Hopen Hclosed Hopen' Hclosed') as [-> ->].
    rewrite P1 in P'. injection P' as <- <- <- <-.
    eexists. split; [exact E'|]. simpl. split; [reflexivity | lia].
Qed.

(** C7.  The copy step takes [min k remaining] bytes, where [k = num -
    bytes_provided] is the count still wanted and [remaining] is
    [qkd_key_buffer_len - qkd_key_buffer_pos]: these are the bytes of the
    block at the current position, they are stored at [buf + bytes_provided],
    the position advances by their number, so that what remains afterwards is
    what remained before less the bytes taken, and never more is taken than
    remained.  The step does not touch the network: an iteration of the loop
    that finds the block not used up hands the same world to the next. *)
Theorem copy_step_takes_min buf num bp g :
  wf g -> 0 <= bp <= num -> num <= INT_MAX ->
  let k := num - bp in
  let remaining := qkd_key_buffer_len g - qkd_key_buffer_pos g in
  let buf' := fst (fst (copy_from_key_buffer buf num bp g)) in
  let bp' := snd (fst (copy_from_key_buffer buf num bp g)) in
  let g' := snd (copy_from_key_buffer buf num bp g) in
  let taken := key_slice g (bp' - bp) in
  Z.of_nat (List.length taken) = Z.min k remaining /\
  bp' - bp = Z.of_nat (List.length taken) /\
  Z.of_nat (List.length taken) <= remaining /\
  buf' = memcpy buf bp taken /\
  qkd_key_buffer_pos g' = qkd_key_buffer_pos g + Z.of_nat (List.length taken) /\
  qkd_key_buffer_len g' - qkd_key_buffer_pos g'
    = remaining - Z.of_nat (List.length taken) /\
  qkd_key_buffer g' = qkd_key_buffer g /\
  (forall fuel w,
     bp < num -> qkd_key_buffer_pos g < qkd_key_buffer_len g ->
     rand_bytes_loop (S fuel) buf num bp g w
     = rand_bytes_loop fuel buf' num bp' g' w).
Proof.
  intros Hwf Hb Hn. cbv zeta.
  assert (Hloop : forall fuel w,
     bp < num -> qkd_key_buffer_pos g < qkd_key_buffer_len g ->
     rand_bytes_loop (S fuel) buf num bp g w
     = rand_bytes_loop fuel (fst (fst (copy_from_key_buffer buf num bp g))) num
         (snd (fst (copy_from_key_buffer buf num bp g)))
         (snd (copy_from_key_buffer buf num bp g)) w).
  { intros fuel w Hlt Hpos. cbn [rand_bytes_loop].
    replace (bp <? num) with true by (symmetry; apply Z.ltb_lt; lia).
    rewrite refill_noop by exact Hpos.
    destruct (copy_from_key_buffer buf num bp g) as [[x y] z]. reflexivity. }
  revert Hloop.
  rewrite copy_from_key_buffer_eq by auto. cbv zeta. simpl fst. simpl snd.
  intros Hloop.
  set (m := Z.min (qkd_key_buffer_len g - qkd_key_buffer_pos g) (num - bp)).
  replace (bp + m - bp) with m by lia.
  assert (Hm : 0 <= m) by (destruct Hwf as (? & ? & ?); unfold m; lia).
  assert (Hlen : Z.of_nat (List.length (key_slice g m)) = m)
    by (apply key_slice_length; auto; unfold m; lia).
  rewrite Hlen. simpl.
  repeat split; try (unfold m; lia). exact Hloop.
Qed.

(** C9.  A call of [template_rand_bytes] returns: the loop needs no more than
    [num] iterations.  It reports between 0 and [max 0 num] bytes and returns
    0 or 1, and the buffer of the caller holds no more than it reports:
    every byte from offset [rand_provided] on, hence every byte from offset
    [num] on, is as it was before the call, and a buffer with room for [num]
    bytes keeps its length.  Inside the loop a fetch that fails is not tried
    again: the iteration returns at once, with the world the single failed
    fetch left, so no further request is sent. *)
Theorem rand_bytes_terminates_without_retry buf num g w :
  wf g -> num <= INT_MAX ->
  (exists r,
     template_rand_bytes buf num g w = Some r /\
     0 <= rand_provided r <= Z.max 0 num /\
     (rand_ret r = 0 \/ rand_ret r = 1) /\
     skipn (Z.to_nat (rand_provided r)) (rand_buf r)
       = skipn (Z.to_nat (rand_provided r)) buf /\
     skipn (Z.to_nat num) (rand_buf r) = skipn (Z.to_nat num) buf /\
     (Z.max 0 num <= Z.of_nat (List.length buf) ->
      List.length (rand_buf r) = List.length buf)) /\
  (forall fuel bp g0 w0 rc g1 w1,
     bp < num ->
     qkd_key_buffer_pos g0 >= qkd_key_buffer_len g0 ->
     template_engine_fetch_key g0 w0 = (rc, g1, w1) ->
     rc <> 0 ->
     rand_bytes_loop (S fuel) buf num bp g0 w0
     = Some (mkRand (if 0 <? bp then 1 else 0) buf bp g1 w1)).
Proof.
  intros Hwf Hn. split.
  - destruct (rand_bytes_cases buf num g w Hwf Hn)
      as [(g1 & w1 & _ & _ & _ & E)
         |(g0 & w0 & out & ok & g' & w' & Hwf0 & _ & _ & _ & P & E)];
      rewrite E; eexists; (split; [reflexivity|]); simpl.
    + split; [lia | auto].
    + destruct (produce_spec _ _ _ _ _ _ _ _ P Hwf0) as (_ & _ & _ & Hok & Hno).
      assert (Hlen : Z.of_nat (List.length out) <= Z.max 0 num).
      { destruct ok; [specialize (Hok eq_refl) | specialize (Hno eq_refl)]; lia. }
      split; [lia|]. split.
      { destruct ok; [auto|].
        destruct (0 <? Z.of_nat (List.length out)); auto. }
      rewrite Nat2Z.id. split; [apply memcpy_0_skipn|]. split.
      * replace (Z.to_nat num)
          with (List.length out + (Z.to_nat num - List.length out))%nat by lia.
        rewrite !skipn_plus. f_equal. apply memcpy_0_skipn.
      * intros Hroom. apply memcpy_length; lia.
  - intros fuel bp g0 w0 rc g1 w1 Hlt Hge F Hrc.
    cbn [rand_bytes_loop].
    replace (bp <? num) with true by (symmetry; apply Z.ltb_lt; lia).
    unfold refill_if_exhausted.
    replace (qkd_key_buffer_pos g0 >=? qkd_key_buffer_len g0) with true
      by (symmetry; rewrite Z.geb_leb; apply Z.leb_le; lia).
    rewrite F.
    replace (negb (rc =? 0)) with true
      by (symmetry; apply negb_true_iff; apply Z.eqb_neq; exact Hrc).
    reflexivity.
Qed.

(** * Further properties of the engine *)

(** ** Parsing of the replies *)

Lemma strchr_app_skip (h t : string) (c : ascii) :
  free_of c h = true -> free_of NUL h = true ->
  strchr (h ++ t) c = strchr t c.
Proof.
  induction h as [|a h IH]; simpl; [reflexivity|].
  intros Hc Hn.
  apply andb_true_iff in Hc. destruct Hc as [Hc1 Hc2].
  apply andb_true_iff in Hn. destruct Hn as [Hn1 Hn2].
  apply negb_true_iff in Hc1. apply negb_true_iff in Hn1.
  rewrite Hc1, Hn1. now apply IH.
Qed.

(** In a string without a NUL byte, [strchr] fails only if the character is
    absent. *)
Lemma strchr_none_free (v : string) (c : ascii) :
  strchr v c = None -> free_of NUL v = true -> free_of c v = true.
Proof.
  induction v as [|a v IH]; simpl; [reflexivity|].
  intros Hs Hn.
  apply andb_true_iff in Hn. destruct Hn as [Hn1 Hn2].
  apply negb_true_iff in Hn1. rewrite Hn1 in Hs.
  destruct (Ascii.eqb a c); [discriminate|]. simpl. now apply IH.
Qed.

Lemma substring_app_prefix (h t : string) :
  String.substring 0 (String.length h) (h ++ t) = h.
Proof.
  induction h as [|a h IH]; simpl.
  - destruct t; reflexivity.
  - now rewrite IH.
Qed.

Lemma str_advance_app (a r : string) :
  str_advance (String.length a) (a ++ r) = r.
Proof. induction a as [|c a IH]; simpl; [reflexivity | exact IH]. Qed.

Lemma strstr_here (needle rest : string) :
  strstr (needle ++ rest) needle = Some (needle ++ rest)%string.
Proof.
  assert (P : String.prefix needle (needle ++ rest) = true)
    by (apply String.prefix_correct; apply substring_app_prefix).
  revert P. generalize (needle ++ rest)%string. intros hay P.
  destruct hay; cbn [strstr]; now rewrite P.
Qed.

(** The value of a field written as [name: "v"] is read back as [v], for a
    twelve-character [name] and a value without a double quote. *)
Lemma quoted_value_after_field (name v t : string) :
  String.length name = 12%nat ->
  strchr v dquote = None -> free_of NUL v = true ->
  quoted_value_after (name ++ ": " ++ quoted v ++ t) = Some v.
Proof.
  intros Hl Hv Hn. unfold quoted_value_after.
  rewrite <- Hl, str_advance_app.
  unfold quoted. simpl.
  replace ((v ++ String dquote EmptyString) ++ t)%string
    with (v ++ String dquote t)%string
    by (clear; induction v as [|a v IH]; simpl; [reflexivity | now rewrite IH]).
  rewrite strchr_app_skip by (auto using strchr_none_free). simpl.
  f_equal.
  replace (String.length (v ++ String dquote t) - S (String.length t))%nat
    with (String.length v)
    by (rewrite string_length_append; simpl; lia).
  apply substring_app_prefix.
Qed.

Lemma parse_handle_payload (h : string) :
  strchr h dquote = None -> free_of NUL h = true ->
  exists p, strstr (handle_payload h) key_handle_name = Some p /\
            quoted_value_after p = Some h.
Proof.
  intros Hh Hn.
  exists (key_handle_name ++ ": " ++ quoted h ++ "}")%string. split.
  - unfold handle_payload.
    change ("{" ++ key_handle_name ++ ": " ++ quoted h ++ "}")%string
      with (String "{" (key_handle_name ++ ": " ++ quoted h ++ "}")).
    cbn [strstr].
    replace (String.prefix key_handle_name
               (String "{" (key_handle_name ++ ": " ++ quoted h ++ "}")))
      with false by reflexivity.
    replace (Ascii.eqb "{" NUL) with false by reflexivity.
    apply strstr_here.
  - now apply quoted_value_after_field.
Qed.

(** ** Successful round-trips *)

Lemma perform_post_open_ok url data h0 w body rest p h :
  replies w = Http 200 body :: rest ->
  strstr body key_handle_name = Some p ->
  quoted_value_after p = Some h ->
  perform_post url data (Some h0) None None w
  = (mkPost (Some body) (Some (Some h)) None None,
     mkWorld rest (sent w ++ [mkRequest url data])).
Proof.
  intros Hr Hs Hq. unfold perform_post, curl_easy_perform.
  rewrite Hr. simpl. now rewrite Hs, Hq.
Qed.

Lemma perform_post_plain_ok url data w body rest :
  replies w = Http 200 body :: rest ->
  perform_post url data None None None w
  = (mkPost (Some body) None None None,
     mkWorld rest (sent w ++ [mkRequest url data])).
Proof.
  intros Hr. unfold perform_post, curl_easy_perform. now rewrite Hr.
Qed.

Lemma connect_ok g w url body p h b2 rest :
  qkd_service_url g = Some url ->
  replies w = Http 200 body :: Http 200 b2 :: rest ->
  strstr body key_handle_name = Some p ->
  quoted_value_after p = Some h ->
  template_engine_connect g w
  = (0, set_handle g (Some h),
     mkWorld rest (sent w ++ [open_request url; connect_request url h])).
Proof.
  intros Hu Hr Hs Hq. unfold template_engine_connect. rewrite Hu.
  unfold asprintf_path, asprintf_handle.
  rewrite (perform_post_open_ok _ _ _ _ _ _ _ _ Hr Hs Hq).
  cbn [response_body post_handle cell qkd_key_handle set_handle].
  rewrite (perform_post_plain_ok _ _ _ b2 rest) by reflexivity.
  cbn [response_body sent].
  unfold open_request, connect_request. now rewrite <- app_assoc.
Qed.

Lemma fetch_ok g w url h body p b64 bs rest :
  qkd_service_url g = Some url -> qkd_key_handle g = Some h ->
  replies w = Http 200 body :: rest ->
  strstr body key_buffer_name = Some p ->
  quoted_value_after p = Some b64 ->
  EVP_DecodeBlock b64 = Some bs ->
  0 <= to_int (to_size_t (Z.of_nat (List.length bs))) ->
  to_size_t (Z.of_nat (List.length bs)) <> 0 ->
  template_engine_fetch_key g w
  = (0, mkGlobals (Some url) (Some h) (Some bs)
                  (to_size_t (Z.of_nat (List.length bs))) 0,
     mkWorld rest (sent w ++ [get_key_request url h])).
Proof.
  intros Hu Hh Hr Hs Hq Hd Hi Hz.
  destruct g as [u hd kb kl kp]; simpl in Hu, Hh; subst u hd.
  unfold template_engine_fetch_key.
  unfold asprintf_path, asprintf_handle, perform_post, curl_easy_perform.
  simpl. rewrite Hr. simpl. rewrite Hs, Hq, Hd.
  replace (to_int (to_size_t (Z.of_nat (List.length bs))) <? 0) with false
    by (symmetry; apply Z.ltb_ge; exact Hi).
  simpl.
  replace (to_size_t (Z.of_nat (List.length bs)) =? 0) with false
    by (symmetry; apply Z.eqb_neq; exact Hz).
  reflexivity.
Qed.

(** A length that fits an [int] survives the conversions. *)
Lemma length_conversions (bs : list byte) :
  Z.of_nat (List.length bs) <= INT_MAX ->
  to_size_t (Z.of_nat (List.length bs)) = Z.of_nat (List.length bs) /\
  to_int (Z.of_nat (List.length bs)) = Z.of_nat (List.length bs).
Proof.
  unfold INT_MAX. intros H. split.
  - apply to_size_t_small. unfold SIZE_MOD. lia.
  - apply to_int_small. unfold INT_MAX. lia.
Qed.

(** X1.  The handle the service issues in the form the engine itself uses
    for its payloads is parsed back unchanged, when it holds neither a
    double quote nor a NUL byte: after the open and the confirmation the
    handle is stored, and the confirmation request carried it. *)
Theorem connect_handle_round_trip g w url h b2 rest :
  qkd_service_url g = Some url ->
  strchr h dquote = None -> free_of NUL h = true ->
  replies w = Http 200 (handle_payload h) :: Http 200 b2 :: rest ->
  template_engine_connect g w
  = (0, set_handle g (Some h),
     mkWorld rest (sent w ++ [open_request url; connect_request url h])).
Proof.
  intros Hu Hq Hn Hr.
  destruct (parse_handle_payload h Hq Hn) as (p & Hs & Hv).
  exact (connect_ok g w url _ p h b2 rest Hu Hr Hs Hv).
Qed.

(** X2.  A 200 reply that carries a ["key_buffer"] field holding [b64] makes
    the fetch install the bytes [EVP_DecodeBlock] decodes from [b64], with
    their count as length and the read position at 0, when there is at least
    one byte.  The value [b64] is text the C code can read to its end: it
    holds no NUL byte. *)
Theorem fetch_key_installs_decoded_block g w url h b64 bs rest :
  qkd_service_url g = Some url -> qkd_key_handle g = Some h ->
  strchr b64 dquote = None -> free_of NUL b64 = true ->
  replies w
  = Http 200 ("{" ++ key_buffer_name ++ ": " ++ quoted b64 ++ "}")%string
    :: rest ->
  EVP_DecodeBlock b64 = Some bs ->
  0 < Z.of_nat (List.length bs) <= INT_MAX ->
  template_engine_fetch_key g w
  = (0, mkGlobals (Some url) (Some h) (Some bs) (Z.of_nat (List.length bs)) 0,
     mkWorld rest (sent w ++ [get_key_request url h])).
Proof.
  intros Hu Hh Hq Hnul Hr Hd Hl.
  destruct (length_conversions bs ltac:(lia)) as [E1 E2].
  assert (Hs : strstr ("{" ++ key_buffer_name ++ ": " ++ quoted b64 ++ "}")
                      key_buffer_name
               = Some (key_buffer_name ++ ": " ++ quoted b64 ++ "}")%string).
  { change ("{" ++ key_buffer_name ++ ": " ++ quoted b64 ++ "}")%string
      with (String "{" (key_buffer_name ++ ": " ++ quoted b64 ++ "}")).
    cbn [strstr].
    replace (String.prefix key_buffer_name
               (String "{" (key_buffer_name ++ ": " ++ quoted b64 ++ "}")))
      with false by reflexivity.
    replace (Ascii.eqb "{" NUL) with false by reflexivity.
    apply strstr_here. }
  assert (Hv : quoted_value_after (key_buffer_name ++ ": " ++ quoted b64 ++ "}")
               = Some b64)
    by (now apply quoted_value_after_field).
  rewrite (fetch_ok g w url h _ _ b64 bs rest Hu Hh Hr Hs Hv Hd).
  - now rewrite E1.
  - rewrite E1, E2. lia.
  - rewrite E1. lia.
Qed.

(** X3.  With URL and handle set, and a next reply that carries a body if
    its status is 200, a fetch succeeds exactly when that reply has status
    200, its body, read as a C string up to its first NUL byte, holds a
    ["key_buffer"] field with a quoted value, and that value decodes to a
    block whose length is neither negative as an [int] nor zero.  A refused
    transfer, another status, a missing field, invalid Base64 and an empty
    block all make it fail. *)
Theorem fetch_key_succeeds_exactly_when g w url h :
  qkd_service_url g = Some url -> qkd_key_handle g = Some h ->
  body_received (next_reply w) = true ->
  (fst (fst (template_engine_fetch_key g w)) = 0 <->
   exists body p b64 bs rest,
     replies w = Http 200 body :: rest /\
     strstr body key_buffer_name = Some p /\
     quoted_value_after p = Some b64 /\
     EVP_DecodeBlock b64 = Some bs /\
     0 <= to_int (to_size_t (Z.of_nat (List.length bs))) /\
     to_size_t (Z.of_nat (List.length bs)) <> 0).
Proof.
  intros Hu Hh _. split.
  - unfold template_engine_fetch_key. rewrite Hu, Hh.
    unfold asprintf_path, asprintf_handle, perform_post, curl_easy_perform.
    destruct (replies w) as [|r rest]; [simpl; discriminate|].
    destruct r as [|code body]; [simpl; discriminate|].
    destruct (code =? 200) eqn:Ec; [|simpl; discriminate].
    apply Z.eqb_eq in Ec. subst code. simpl.
    destruct (strstr body key_buffer_name) as [p|] eqn:Es;
      [|simpl; discriminate].
    destruct (quoted_value_after p) as [b64|] eqn:Eq; [|simpl; discriminate].
    destruct (EVP_DecodeBlock b64) as [bs|] eqn:Ed; [|simpl; discriminate].
    destruct (to_int (to_size_t (Z.of_nat (List.length bs))) <? 0) eqn:Ei;
      [simpl; discriminate|].
    simpl.
    destruct (to_size_t (Z.of_nat (List.length bs)) =? 0) eqn:Ez;
      [simpl; discriminate|].
    intros _. exists body, p, b64, bs, rest.
    apply Z.ltb_ge in Ei. apply Z.eqb_neq in Ez. auto 10.
  - intros (body & p & b64 & bs & rest & Hr & Hs & Hq & Hd & Hi & Hz).
    now rewrite (fetch_ok g w url h body p b64 bs rest).
Qed.

(** X4.  Started without a handle, and with a reply to the open request that
    carries a body if its status is 200, a connect succeeds exactly when a
    URL is set, the reply to the open request has status 200 and its body,
    read as a C string up to its first NUL byte, holds a ["key_handle"]
    field with a quoted value, and the reply to the confirmation request has
    status 200. *)
Theorem connect_succeeds_exactly_when g w :
  qkd_key_handle g = None ->
  body_received (next_reply w) = true ->
  (fst (fst (template_engine_connect g w)) = 0 <->
   exists url body p h b2 rest,
     qkd_service_url g = Some url /\
     replies w = Http 200 body :: Http 200 b2 :: rest /\
     strstr body key_handle_name = Some p /\
     quoted_value_after p = Some h).
Proof.
  intros Hh _. split.
  - unfold template_engine_connect.
    destruct (qkd_service_url g) as [url|]; [|simpl; discriminate].
    unfold asprintf_path, asprintf_handle, connect_err,
      perform_post, curl_easy_perform.
    rewrite Hh.
    destruct (replies w) as [|r rest]; [simpl; discriminate|].
    destruct r as [|code body]; [simpl; discriminate|].
    destruct (code =? 200) eqn:Ec; [|simpl; discriminate].
    apply Z.eqb_eq in Ec. subst code. simpl.
    destruct (strstr body key_handle_name) as [p|] eqn:Es;
      [|simpl; discriminate].
    destruct (quoted_value_after p) as [h|] eqn:Eq; [|simpl; discriminate].
    simpl.
    destruct rest as [|r2 rest2]; [simpl; discriminate|].
    destruct r2 as [|code2 b2]; [simpl; discriminate|].
    destruct (code2 =? 200) eqn:Ec2; [|simpl; discriminate].
    apply Z.eqb_eq in Ec2. subst code2. simpl.
    intros _. exists url, body, p, h, b2, rest2. auto.
  - intros (url & body & p & h & b2 & rest & Hu & Hr & Hs & Hq).
    now rewrite (connect_ok g w url body p h b2 rest).
Qed.

(** ** Closing, reopening, configuring *)

(** X5.  A close releases the key buffer and keeps the URL.  With a URL and
    a handle it posts exactly one close request carrying the handle and
    forgets the handle; otherwise it sends nothing.  The state it leaves does
    not depend on what the service answers, and a second close changes
    nothing and sends nothing. *)
Theorem close_releases_session g w :
  qkd_service_url (fst (template_engine_close g w)) = qkd_service_url g /\
  qkd_key_buffer (fst (template_engine_close g w)) = None /\
  qkd_key_buffer_len (fst (template_engine_close g w)) = 0 /\
  qkd_key_buffer_pos (fst (template_engine_close g w)) = 0 /\
  (forall url h,
     qkd_service_url g = Some url -> qkd_key_handle g = Some h ->
     qkd_key_handle (fst (template_engine_close g w)) = None /\
     sent (snd (template_engine_close g w)) = sent w ++ [close_request url h]) /\
  (qkd_service_url g = None \/ qkd_key_handle g = None ->
   qkd_key_handle (fst (template_engine_close g w)) = qkd_key_handle g /\
   snd (template_engine_close g w) = w) /\
  (forall w', fst (template_engine_close g w') = fst (template_engine_close g w)) /\
  (forall w', template_engine_close (fst (template_engine_close g w)) w'
              = (fst (template_engine_close g w), w')).
Proof.
  unfold template_engine_close.
  destruct g as [u hd kb kl kp]; simpl.
  destruct hd as [h|], u as [url|]; simpl.
  all: do 4 (split; [reflexivity|]).
  all: split;
    [intros url' h' E1 E2;
     first [discriminate
           | inversion E1; inversion E2; subst; split;
             [reflexivity | apply post_close_sent]]|].
  all: split; [intros [E|E]; first [discriminate | split; reflexivity]|].
  all: split; intros w'; reflexivity.
Qed.

(** X6.  After a close, the next byte request opens a new session: with the
    service issuing the handle [h2], a text without double quote or NUL
    byte, it behaves as a request made in a session that holds [h2] and an
    empty key buffer.  Bytes left in the block of the closed session are not
    served. *)
Theorem rand_bytes_reopens_after_close buf num g w w1 url h2 b2 rest :
  qkd_service_url g = Some url ->
  strchr h2 dquote = None -> free_of NUL h2 = true ->
  replies w1 = Http 200 (handle_payload h2) :: Http 200 b2 :: rest ->
  template_rand_bytes buf num (fst (template_engine_close g w)) w1
  = template_rand_bytes buf num
      (mkGlobals (Some url) (Some h2) None 0 0)
      (mkWorld rest (sent w1 ++ [open_request url; connect_request url h2])).
Proof.
  intros Hu Hq Hn Hr.
  destruct (parse_handle_payload h2 Hq Hn) as (p & Hs & Hv).
  assert (Hc : fst (template_engine_close g w) = mkGlobals (Some url) None None 0 0).
  { unfold template_engine_close. destruct g as [u hd kb kl kp]; simpl in *.
    subst u. destruct hd; reflexivity. }
  rewrite Hc.
  rewrite rand_bytes_closed by reflexivity.
  rewrite (connect_ok (mkGlobals (Some url) None None 0 0) w1 url _ p h2 b2
             rest eq_refl Hr Hs Hv).
  reflexivity.
Qed.

(** The URL is never changed by a byte request, nor is the handle of an open
    session. *)
Lemma rand_bytes_url_handle buf num g w r :
  wf g -> num <= INT_MAX ->
  template_rand_bytes buf num g w = Some r ->
  qkd_service_url (rand_globals r) = qkd_service_url g /\
  (qkd_key_handle g <> None ->
   qkd_key_handle (rand_globals r) = qkd_key_handle g) /\
  (qkd_key_handle (rand_globals r) <> None ->
   qkd_key_handle g = None -> qkd_service_url g <> None).
Proof.
  intros Hwf Hn T.
  destruct (rand_bytes_cases buf num g w Hwf Hn)
    as [(g1 & w1 & Hh & _ & -> & E)
       |(g0 & w0 & out & ok & g' & w' & Hwf0 & _ & Hopen & Hclosed & P & E)];
    rewrite E in T; inversion T; subst r; simpl.
  - repeat split; auto; try (intros Hc; contradiction).
  - destruct (produce_spec _ _ _ _ _ _ _ _ P Hwf0) as (_ & Hu & Hh & _ & _).
    rewrite Hu, Hh.
    destruct (qkd_key_handle g) as [h|] eqn:Hg.
    + destruct Hopen as [-> _]; [discriminate|].
      repeat split; auto. intros _ Hc; discriminate.
    + specialize (Hclosed eq_refl).
      destruct (connect_cases _ _ _ _ _ Hclosed Hg) as [(_ & h & ->)|(Hc & _)];
        [|discriminate].
      simpl. split; [reflexivity|]. split; [intros Hc; contradiction|].
      intros _ _.
      destruct (connect_success_requests _ _ _ _ Hclosed) as (url & _ & Hurl & _).
      rewrite Hurl. discriminate.
Qed.

(** X7.  A byte request never changes the configured URL, so the status the
    engine reports is the same before and after it, whether or not the
    request succeeded; and it never drops the handle of an open session, not
    even when a fetch fails. *)
Theorem rand_bytes_keeps_url_and_session buf num g w r :
  wf g -> num <= INT_MAX ->
  template_rand_bytes buf num g w = Some r ->
  qkd_service_url (rand_globals r) = qkd_service_url g /\
  template_rand_status (rand_globals r) = template_rand_status g /\
  (qkd_key_handle g <> None ->
   qkd_key_handle (rand_globals r) = qkd_key_handle g).
Proof.
  intros Hwf Hn T.
  destruct (rand_bytes_url_handle buf num g w r Hwf Hn T) as (Hu & Hh & _).
  unfold template_rand_status. rewrite Hu. auto.
Qed.

(** X8.  The control function touches nothing but the URL.  It returns 1
    exactly for command 1 with a string, and then the URL is that string and
    the status 1; for any other command, or a NULL pointer, it returns 0 and
    the globals are as they were. *)
Theorem ctrl_only_sets_url cmd p g :
  qkd_key_handle (snd (template_engine_ctrl cmd p g)) = qkd_key_handle g /\
  qkd_key_buffer (snd (template_engine_ctrl cmd p g)) = qkd_key_buffer g /\
  qkd_key_buffer_len (snd (template_engine_ctrl cmd p g)) = qkd_key_buffer_len g /\
  qkd_key_buffer_pos (snd (template_engine_ctrl cmd p g)) = qkd_key_buffer_pos g /\
  (fst (template_engine_ctrl cmd p g) = 1 <-> cmd = 1 /\ p <> None) /\
  (fst (template_engine_ctrl cmd p g) = 1 ->
   qkd_service_url (snd (template_engine_ctrl cmd p g)) = p /\
   template_rand_status (snd (template_engine_ctrl cmd p g)) = 1) /\
  (fst (template_engine_ctrl cmd p g) <> 1 ->
   fst (template_engine_ctrl cmd p g) = 0 /\
   snd (template_engine_ctrl cmd p g) = g).
Proof.
  unfold template_engine_ctrl, strdup, template_rand_status.
  destruct (cmd =? 1) eqn:Ec.
  - apply Z.eqb_eq in Ec. subst cmd.
    destruct p as [u|]; simpl; intuition (try discriminate; try congruence).
  - apply Z.eqb_neq in Ec. simpl. intuition (try discriminate; try congruence).
Qed.

(** X9.  From a state in which a handle is only held together with a URL,
    destroy returns 1 and leaves the initial globals: no URL, no handle, no
    key buffer.  Until a URL is set again every byte request fails with 0,
    writes nothing, and sends no request. *)
Theorem destroy_resets_engine g w :
  session_configured g ->
  fst (fst (template_engine_destroy g w)) = 1 /\
  snd (fst (template_engine_destroy g w)) = initial_globals /\
  (forall buf num w',
     template_rand_bytes buf num initial_globals w'
     = Some (mkRand 0 buf 0 initial_globals w')).
Proof.
  intros Hs. unfold template_engine_destroy, template_engine_close.
  destruct g as [u hd kb kl kp]. unfold session_configured in Hs; simpl in *.
  destruct hd as [h|], u as [url|]; simpl; repeat split; auto.
  exfalso. apply Hs; [discriminate | reflexivity].
Qed.

(** ** Serving requests *)

Lemma produce_zero fuel g w : produce fuel 0 g w = Some ([], true, g, w).
Proof. destruct fuel; reflexivity. Qed.

Lemma set_pos_same g : set_pos g (qkd_key_buffer_pos g + 0) = g.
Proof. destruct g; unfold set_pos; simpl. now rewrite Z.add_0_r. Qed.

(** X10.  With a session open, a request for no more bytes than are left in
    the key buffer is served from it: 1 is returned, the bytes at the read
    position are copied to the start of the caller's buffer, the position
    advances by the count, and no request is sent.  A count of zero or less
    copies nothing. *)
Theorem rand_bytes_served_from_buffer buf num g w :
  wf g -> qkd_key_handle g <> None ->
  num <= INT_MAX ->
  num <= qkd_key_buffer_len g - qkd_key_buffer_pos g ->
  template_rand_bytes buf num g w
  = Some (mkRand 1 (memcpy buf 0 (key_slice g (Z.max 0 num))) (Z.max 0 num)
            (set_pos g (qkd_key_buffer_pos g + Z.max 0 num)) w).
Proof.
  intros Hwf Hh Hn Hrem.
  destruct (rand_bytes_open buf num g w Hh Hwf Hn)
    as (out & ok & g' & w' & P & E).
  rewrite E. clear E.
  destruct (Z_le_gt_dec num 0) as [Hle|Hgt].
  - rewrite Z.max_l by lia.
    replace (Z.to_nat num) with 0%nat in P by lia.
    simpl in P.
    replace (0 <? num) with false in P by (symmetry; apply Z.ltb_ge; lia).
    inversion P; subst.
    rewrite set_pos_same.
    unfold key_slice. destruct (qkd_key_buffer g'); reflexivity.
  - rewrite Z.max_r by lia.
    destruct (Z.to_nat num) as [|f] eqn:Ef; [lia|].
    cbn [produce] in P.
    replace (0 <? num) with true in P by (symmetry; apply Z.ltb_lt; lia).
    rewrite refill_noop in P by lia.
    cbv zeta in P.
    rewrite (Z.min_r _ num) in P by lia.
    replace (num - num) with 0 in P by lia.
    rewrite produce_zero in P. inversion P; subst.
    rewrite app_nil_r.
    rewrite key_slice_length by (auto; lia).
    reflexivity.
Qed.

(** X11.  With a session open and the key buffer used up, a request that one
    block can serve sends exactly one fetch request, installs the decoded
    block, copies its first [num] bytes to the caller and leaves the read
    position at [num].  The value [b64] holds no NUL byte. *)
Theorem rand_bytes_refills_when_exhausted buf num g w url h b64 bs rest :
  qkd_service_url g = Some url -> qkd_key_handle g = Some h ->
  qkd_key_buffer_pos g >= qkd_key_buffer_len g ->
  strchr b64 dquote = None -> free_of NUL b64 = true ->
  replies w
  = Http 200 ("{" ++ key_buffer_name ++ ": " ++ quoted b64 ++ "}")%string
    :: rest ->
  EVP_DecodeBlock b64 = Some bs ->
  0 < num <= Z.of_nat (List.length bs) ->
  Z.of_nat (List.length bs) <= INT_MAX ->
  template_rand_bytes buf num g w
  = Some (mkRand 1 (memcpy buf 0 (firstn (Z.to_nat num) bs)) num
            (mkGlobals (Some url) (Some h) (Some bs)
                       (Z.of_nat (List.length bs)) num)
            (mkWorld rest (sent w ++ [get_key_request url h]))).
Proof.
  intros Hu Hh Hex Hq Hnul Hr Hd Hnum Hl.
  destruct (length_conversions bs Hl) as [E1 E2].
  assert (F : template_engine_fetch_key g w
              = (0, mkGlobals (Some url) (Some h) (Some bs)
                              (Z.of_nat (List.length bs)) 0,
                 mkWorld rest (sent w ++ [get_key_request url h]))).
  { assert (Hs : strstr ("{" ++ key_buffer_name ++ ": " ++ quoted b64 ++ "}")
                        key_buffer_name
                 = Some (key_buffer_name ++ ": " ++ quoted b64 ++ "}")%string).
    { change ("{" ++ key_buffer_name ++ ": " ++ quoted b64 ++ "}")%string
        with (String "{" (key_buffer_name ++ ": " ++ quoted b64 ++ "}")).
      cbn [strstr].
      replace (String.prefix key_buffer_name
                 (String "{" (key_buffer_name ++ ": " ++ quoted b64 ++ "}")))
        with false by reflexivity.
      replace (Ascii.eqb "{" NUL) with false by reflexivity.
      apply strstr_here. }
    assert (Hv : quoted_value_after
                   (key_buffer_name ++ ": " ++ quoted b64 ++ "}") = Some b64)
      by (now apply quoted_value_after_field).
    rewrite (fetch_ok g w url h _ _ b64 bs rest Hu Hh Hr Hs Hv Hd).
    - now rewrite E1.
    - rewrite E1, E2. lia.
    - rewrite E1. lia. }
  set (g1 := mkGlobals (Some url) (Some h) (Some bs) (Z.of_nat (List.length bs)) 0).
  assert (Hwf1 : wf g1)
    by (unfold wf, g1, SIZE_MOD; simpl; unfold INT_MAX in Hl; lia).
  unfold template_rand_bytes. rewrite Hh.
  destruct (Z.to_nat num) as [|f] eqn:Ef; [lia|].
  cbn [rand_bytes_loop].
  replace (0 <? num) with true by (symmetry; apply Z.ltb_lt; lia).
  unfold refill_if_exhausted.
  replace (qkd_key_buffer_pos g >=? qkd_key_buffer_len g) with true
    by (symmetry; rewrite Z.geb_leb; apply Z.leb_le; lia).
  rewrite F. fold g1. cbn [negb Z.eqb].
  replace (qkd_key_buffer_len g1 =? 0) with false
    by (symmetry; apply Z.eqb_neq; unfold g1; simpl; lia).
  rewrite copy_from_key_buffer_eq by (auto; unfold INT_MAX in *; lia).
  cbv beta iota zeta.
  replace (Z.min (qkd_key_buffer_len g1 - qkd_key_buffer_pos g1) (num - 0))
    with num by (unfold g1; simpl; lia).
  replace (rand_bytes_loop f (memcpy buf 0 (key_slice g1 num)) num (0 + num)
             (set_pos g1 (qkd_key_buffer_pos g1 + num))
             (mkWorld rest (sent w ++ [get_key_request url h])))
    with (Some (mkRand 1 (memcpy buf 0 (key_slice g1 num)) (0 + num)
                  (set_pos g1 (qkd_key_buffer_pos g1 + num))
                  (mkWorld rest (sent w ++ [get_key_request url h])))).
  - unfold key_slice, set_pos, g1.
    cbn [qkd_key_buffer qkd_key_buffer_pos qkd_key_buffer_len
         qkd_service_url qkd_key_handle].
    rewrite Ef. reflexivity.
  - destruct f; simpl;
      replace (num <? num) with false by (symmetry; apply Z.ltb_irrefl);
      reflexivity.
Qed.

(** The refill phase sends one fetch request or none. *)
Lemma refill_sent g w stop g1 w1 url h :
  refill_if_exhausted g w = (stop, g1, w1) ->
  qkd_service_url g = Some url -> qkd_key_handle g = Some h ->
  (w1 = w /\ stop = false) \/
  sent w1 = sent w ++ [get_key_request url h].
Proof.
  unfold refill_if_exhausted. intros H Hu Hh.
  destruct (qkd_key_buffer_pos g >=? qkd_key_buffer_len g).
  - destruct (template_engine_fetch_key g w) as [[rc g'] w'] eqn:F.
    right.
    assert (S1 : sent w' = sent w ++ [get_key_request url h]).
    { destruct (fetch_key_cases _ _ _ _ _ F)
        as [(_ & [Hc|Hc] & _)|(url1 & h1 & Hu1 & Hh1 & Hs & _)];
        congruence. }
    destruct (negb (rc =? 0)); [inversion H; subst; exact S1|].
    destruct (qkd_key_buffer_len g' =? 0); inversion H; subst; exact S1.
  - inversion H; subst. auto.
Qed.

(** In an open session the loop sends fetch requests only, and no more of
    them than bytes it obtains, but for one that fails. *)
Lemma produce_requests fuel need g w out ok g' w' url h :
  produce fuel need g w = Some (out, ok, g', w') ->
  wf g ->
  qkd_service_url g = Some url -> qkd_key_handle g = Some h ->
  exists n,
    sent w' = sent w ++ repeat (get_key_request url h) n /\
    Z.of_nat n <= Z.of_nat (List.length out) + (if ok then 0 else 1).
Proof.
  revert need g w out ok g' w'.
  induction fuel as [|f IH]; intros need g w out ok g' w'; simpl.
  - destruct (0 <? need); [discriminate|].
    intros H _ _ _; inversion H; subst.
    exists 0%nat. simpl. rewrite app_nil_r. split; [reflexivity | lia].
  - destruct (0 <? need) eqn:E.
    + apply Z.ltb_lt in E.
      destruct (refill_if_exhausted g w) as [[stop g1] w1] eqn:R.
      intros H Hwf Hu Hh.
      destruct (refill_cases _ _ _ _ _ R Hwf) as (Hwf1 & Hu1 & Hh1 & Hgo & _).
      pose proof (refill_sent _ _ _ _ _ _ _ R Hu Hh) as Hs.
      destruct stop.
      * inversion H; subst. destruct Hs as [[_ Hc]|Hs]; [discriminate|].
        exists 1%nat. simpl. split; [exact Hs | lia].
      * cbv zeta in H. specialize (Hgo eq_refl).
        set (k := Z.min (qkd_key_buffer_len g1 - qkd_key_buffer_pos g1) need) in *.
        assert (Hk : 1 <= k <= need) by (unfold k; lia).
        assert (Hkl : qkd_key_buffer_pos g1 + k <= qkd_key_buffer_len g1)
          by (unfold k; lia).
        assert (Hwf2 : wf (set_pos g1 (qkd_key_buffer_pos g1 + k)))
          by (apply wf_set_pos; auto; lia).
        destruct (produce f (need - k) _ w1) as [[[[out1 ok1] g1'] w1']|] eqn:P;
          [|discriminate].
        inversion H; subst.
        destruct (IH _ _ _ _ _ _ _ P Hwf2) as (n & Hn & Hb);
          [simpl; congruence | simpl; congruence |].
        assert (Hlen : Z.of_nat (List.length (key_slice g1 k)) = k)
          by (apply key_slice_length; auto; lia).
        destruct Hs as [[-> _]|Hs].
        -- exists n. split; [exact Hn|].
           rewrite length_app, Nat2Z.inj_add, Hlen. lia.
        -- exists (S n). split.
           ++ rewrite Hn, Hs, <- app_assoc. reflexivity.
           ++ rewrite length_app, Nat2Z.inj_add, Hlen. lia.
    + intros H _ _ _; inversion H; subst.
      exists 0%nat. simpl. rewrite app_nil_r. split; [reflexivity | lia].
Qed.

(** X12.  With a session open, a byte request sends nothing but fetch
    requests, all to the configured URL and with the handle of the session:
    it never opens, confirms or closes.  Their number is at most the number
    of bytes provided, plus one when the request was not served in full. *)
Theorem rand_bytes_sends_only_fetches buf num g w r url h :
  wf g -> num <= INT_MAX ->
  qkd_service_url g = Some url -> qkd_key_handle g = Some h ->
  template_rand_bytes buf num g w = Some r ->
  exists n,
    sent (rand_world r) = sent w ++ repeat (get_key_request url h) n /\
    Z.of_nat n <= rand_provided r + (if rand_provided r <? num then 1 else 0).
Proof.
  intros Hwf Hn Hu Hh T.
  assert (Hh' : qkd_key_handle g <> None) by (rewrite Hh; discriminate).
  destruct (rand_bytes_open buf num g w Hh' Hwf Hn)
    as (out & ok & g' & w' & P & E).
  rewrite E in T. inversion T; subst r; simpl.
  destruct (produce_requests _ _ _ _ _ _ _ _ _ _ P Hwf Hu Hh) as (n & Hs & Hb).
  destruct (produce_spec _ _ _ _ _ _ _ _ P Hwf) as (_ & _ & _ & Hok & Hno).
  exists n. split; [exact Hs|].
  destruct ok.
  - specialize (Hok eq_refl).
    destruct (Z.of_nat (List.length out) <? num); lia.
  - specialize (Hno eq_refl).
    replace (Z.of_nat (List.length out) <? num) with true
      by (symmetry; apply Z.ltb_lt; lia).
    lia.
Qed.

(** X13.  A byte request that returns 0 has provided no byte and has left
    the caller's buffer exactly as it was; the value returned is always 0 or
    1, and it is 0 only if nothing was provided. *)
Theorem rand_bytes_failure_writes_nothing buf num g w r :
  wf g -> num <= INT_MAX ->
  template_rand_bytes buf num g w = Some r ->
  (rand_ret r = 0 \/ rand_ret r = 1) /\
  (rand_ret r = 0 -> rand_provided r = 0 /\ rand_buf r = buf).
Proof.
  intros Hwf Hn T.
  destruct (rand_bytes_cases buf num g w Hwf Hn)
    as [(g1 & w1 & _ & _ & _ & E)
       |(g0 & w0 & out & ok & g' & w' & _ & _ & _ & _ & _ & E)];
    rewrite E in T; inversion T; subst r; simpl.
  - auto.
  - destruct ok; [split; [auto | discriminate]|].
    destruct (0 <? Z.of_nat (List.length out)) eqn:E0.
    + split; [auto | discriminate].
    + apply Z.ltb_ge in E0. split; [auto|]. intros _.
      destruct out; [|simpl in E0; lia].
      split; [reflexivity | apply memcpy_nil].
Qed.

(** X14.  When the caller's buffer has room for the bytes requested, a byte
    request keeps its length and changes nothing beyond the bytes it reports
    as provided, which are never more than requested: it does not write past
    [buf + num]. *)
Theorem rand_bytes_stays_in_buffer buf num g w r :
  wf g -> num <= INT_MAX ->
  Z.max 0 num <= Z.of_nat (List.length buf) ->
  template_rand_bytes buf num g w = Some r ->
  0 <= rand_provided r <= Z.max 0 num /\
  List.length (rand_buf r) = List.length buf /\
  skipn (Z.to_nat (rand_provided r)) (rand_buf r)
    = skipn (Z.to_nat (rand_provided r)) buf.
Proof.
  intros Hwf Hn Hroom T.
  destruct (rand_bytes_cases buf num g w Hwf Hn)
    as [(g1 & w1 & _ & _ & _ & E)
       |(g0 & w0 & out & ok & g' & w' & Hwf0 & _ & _ & _ & P & E)];
    rewrite E in T; inversion T; subst r; simpl.
  - split; [lia | auto].
  - destruct (produce_spec _ _ _ _ _ _ _ _ P Hwf0) as (_ & _ & _ & Hok & Hno).
    assert (Hlen : 0 <= Z.of_nat (List.length out) <= Z.max 0 num).
    { destruct ok; [specialize (Hok eq_refl) | specialize (Hno eq_refl)]; lia. }
    split; [exact Hlen|]. split.
    + apply memcpy_length; lia.
    + rewrite Nat2Z.id. apply memcpy_0_skipn.
Qed.

(** ** The write callback *)

Lemma memcpy_middle (a b c rest : list byte) :
  List.length b = List.length c ->
  memcpy (a ++ b ++ rest) (Z.of_nat (List.length a)) c = a ++ c ++ rest.
Proof.
  intros Hl. unfold memcpy. rewrite Nat2Z.id.
  rewrite firstn_app, firstn_all, Nat.sub_diag, firstn_O, app_nil_r.
  rewrite skipn_app.
  rewrite (skipn_all2 a) by lia.
  replace (List.length a + List.length c - List.length a)%nat
    with (List.length b) by lia.
  rewrite skipn_app, skipn_all, Nat.sub_diag. reflexivity.
Qed.

(** One call on a block that holds [data] followed by one more byte. *)
Lemma callback_appends data t c junk :
  Z.of_nat (List.length data) + Z.of_nat (List.length c) + 1 < SIZE_MOD ->
  WriteMemoryCallback c 1 (Z.of_nat (List.length c))
    (mkMem (data ++ [t]) (Z.of_nat (List.length data))) junk
  = (Z.of_nat (List.length c),
     mkMem (data ++ c ++ [x00])
           (Z.of_nat (List.length data) + Z.of_nat (List.length c))).
Proof.
  intros Hsz. unfold WriteMemoryCallback. cbn [memory size].
  rewrite Z.mul_1_l.
  rewrite (to_size_t_small (Z.of_nat (List.length c))) by lia.
  rewrite !to_size_t_small by lia.
  rewrite Nat2Z.id, firstn_all.
  unfold realloc.
  rewrite firstn_all2 by (rewrite length_app; simpl; lia).
  replace (Z.to_nat (Z.of_nat (List.length data) + Z.of_nat (List.length c) + 1)
           - List.length (data ++ [t]))%nat
    with (List.length c) by (rewrite length_app; simpl; lia).
  (* the block is [data], then as many bytes as [c] has, then one more *)
  assert (Hx : exists b x, [t] ++ repeat junk (List.length c) = b ++ [x] /\
                           List.length b = List.length c).
  { destruct (@exists_last _ ([t] ++ repeat junk (List.length c)))
      as (b & x & E); [discriminate|].
    exists b, x. split; [exact E|].
    apply (f_equal (@List.length byte)) in E.
    rewrite !length_app, repeat_length in E. simpl in E. lia. }
  destruct Hx as (b & x & E & Hb).
  rewrite <- app_assoc, E.
  rewrite memcpy_middle by exact Hb.
  replace (Z.of_nat (List.length data) + Z.of_nat (List.length c))
    with (Z.of_nat (List.length (data ++ c)))
    by (rewrite length_app; lia).
  replace (data ++ c ++ [x]) with ((data ++ c) ++ [x] ++ [])
    by (rewrite <- app_assoc; reflexivity).
  rewrite memcpy_middle by reflexivity.
  rewrite <- app_assoc. reflexivity.
Qed.

(** X15.  Called with the bytes libcurl delivers, on a block that holds the
    body received so far followed by one more byte, the write callback
    returns the number of bytes delivered, appends them to the body, ends
    the block with a NUL byte and advances [size] by that number. *)
Theorem write_callback_appends data t c junk :
  Z.of_nat (List.length data) + Z.of_nat (List.length c) + 1 < SIZE_MOD ->
  fst (WriteMemoryCallback c 1 (Z.of_nat (List.length c))
         (mkMem (data ++ [t]) (Z.of_nat (List.length data))) junk)
  = Z.of_nat (List.length c) /\
  memory (snd (WriteMemoryCallback c 1 (Z.of_nat (List.length c))
                 (mkMem (data ++ [t]) (Z.of_nat (List.length data))) junk))
  = data ++ c ++ [x00] /\
  size (snd (WriteMemoryCallback c 1 (Z.of_nat (List.length c))
               (mkMem (data ++ [t]) (Z.of_nat (List.length data))) junk))
  = Z.of_nat (List.length (data ++ c)).
Proof.
  intros Hsz. rewrite callback_appends by exact Hsz. simpl.
  rewrite length_app. repeat split; lia.
Qed.

Lemma receive_from data t pieces junk :
  Z.of_nat (List.length data) + Z.of_nat (List.length (List.concat pieces)) + 1
    < SIZE_MOD ->
  pieces <> [] ->
  receive pieces (mkMem (data ++ [t]) (Z.of_nat (List.length data))) junk
  = mkMem (data ++ List.concat pieces ++ [x00])
          (Z.of_nat (List.length (data ++ List.concat pieces))).
Proof.
  revert data t. induction pieces as [|c cs IH]; intros data t Hsz Hne.
  - contradiction.
  - simpl in Hsz. rewrite length_app in Hsz.
    cbn [receive]. rewrite callback_appends by lia. cbn [snd].
    destruct cs as [|c' cs'].
    + simpl. rewrite !app_nil_r, length_app. f_equal. lia.
    + replace (Z.of_nat (List.length data) + Z.of_nat (List.length c))
        with (Z.of_nat (List.length (data ++ c)))
        by (rewrite length_app; lia).
      rewrite app_assoc.
      rewrite IH.
      * simpl. rewrite <- !app_assoc. reflexivity.
      * rewrite length_app. lia.
      * discriminate.
Qed.

(** X16.  Starting from the one-byte block allocated before the transfer,
    the callback run over the pieces of a body, in order, leaves the whole
    body followed by a NUL byte, with [size] its length. *)
Theorem receive_accumulates_body pieces junk :
  Z.of_nat (List.length (List.concat pieces)) + 1 < SIZE_MOD ->
  pieces <> [] ->
  receive pieces (empty_chunk junk) junk
  = mkMem (List.concat pieces ++ [x00]) (Z.of_nat (List.length (List.concat pieces))).
Proof.
  intros Hsz Hne.
  exact (receive_from [] junk pieces junk Hsz Hne).
Qed.

(** ** States the host can reach *)

Lemma close_session_configured g w :
  session_configured g ->
  session_configured (fst (template_engine_close g w)).
Proof.
  unfold session_configured, template_engine_close.
  destruct g as [u hd kb kl kp]; simpl.
  destruct hd as [h|], u as [url|]; simpl; auto.
Qed.

Lemma host_step_invariant c g w :
  wf g -> session_configured g ->
  (match c with CallRandBytes _ num => num <= INT_MAX | _ => True end) ->
  exists g' w',
    host_step c g w = Some (g', w') /\ wf g' /\ session_configured g'.
Proof.
  intros Hwf Hs Hc. destruct c as [cmd p|buf num|b n|b n| | |]; simpl.
  - eexists; eexists. split; [reflexivity|]. split; [now apply ctrl_wf|].
    unfold session_configured, template_engine_ctrl, strdup in *.
    destruct (cmd =? 1); [|exact Hs].
    destruct p; simpl; [discriminate | exact Hs].
  - destruct (template_rand_bytes buf num g w) as [r|] eqn:T.
    + simpl. eexists; eexists. split; [reflexivity|].
      split; [eapply rand_bytes_wf; eauto|].
      destruct (rand_bytes_url_handle buf num g w r Hwf Hc T) as (Hu & Hh & Hn).
      unfold session_configured in *. intros Hr. rewrite Hu.
      destruct (qkd_key_handle g) eqn:Hg.
      * apply Hs. discriminate.
      * now apply Hn.
    + exfalso.
      destruct (rand_bytes_cases buf num g w Hwf Hc)
        as [(g1 & w1 & _ & _ & _ & E)
           |(g0 & w0 & out & ok & g' & w' & _ & _ & _ & _ & _ & E)];
        congruence.
  - eauto.
  - eauto.
  - eauto.
  - unfold template_rand_cleanup.
    destruct (template_engine_close g w) as [g1 w1] eqn:C.
    eexists; eexists. split; [reflexivity|].
    pose proof (close_wf g w) as H1.
    pose proof (close_session_configured g w Hs) as H2.
    rewrite C in H1, H2. auto.
  - unfold template_engine_destroy.
    destruct (template_engine_close g w) as [g1 w1] eqn:C.
    eexists; eexists. split; [reflexivity|].
    pose proof (close_wf g w) as H1.
    pose proof (close_session_configured g w Hs) as H2.
    rewrite C in H1, H2. simpl in H1, H2. split; [exact H1|].
    unfold session_configured in *. simpl. intros Hh.
    (* a handle would have needed a URL, and then close has dropped it *)
    exfalso. revert C Hh. unfold template_engine_close.
    destruct g as [u hd kb kl kp]; simpl in *.
    destruct hd as [h|], u as [url|]; simpl; intros C; inversion C; subst;
      simpl; auto.
    intros _. apply Hs; [discriminate | reflexivity].
Qed.

(** X17.  Whatever the host calls, in whatever order, with counts that are
    values of type [int], and whatever the service answers: every call
    returns, the read position stays inside the key block, the block holds
    at least as many bytes as its recorded length, and a handle is held only
    while a URL is set. *)
Theorem host_calls_keep_invariant cs w :
  int_counts cs ->
  exists g' w',
    host_run cs initial_globals w = Some (g', w') /\
    wf g' /\ session_configured g'.
Proof.
  assert (G : forall cs g w,
             wf g -> session_configured g -> int_counts cs ->
             exists g' w',
               host_run cs g w = Some (g', w') /\ wf g' /\ session_configured g').
  { clear cs w. induction cs as [|c cs IH]; intros g w Hwf Hs Hc.
    - exists g, w. auto.
    - inversion Hc as [|c0 cs0 Hc1 Hc2]; subst.
      destruct (host_step_invariant c g w Hwf Hs Hc1)
        as (g1 & w1 & E & Hwf1 & Hs1).
      cbn [host_run]. rewrite E. now apply IH. }
  intros Hc. apply G; [apply wf_initial | | exact Hc].
  unfold session_configured. simpl. intros H; contradiction.
Qed.

(** ** Conservation of key material *)

(** X18.  With a session open, no byte of key material is lost, repeated or
    reordered by a byte request, whatever its outcome: the bytes provided,
    followed by the bytes left unread in the key buffer, are the bytes that
    were unread before, followed by the blocks of the replies the request has
    used, in order. *)
Theorem rand_bytes_conserves_key_material buf num g w r :
  wf g -> num <= INT_MAX ->
  qkd_service_url g <> None -> qkd_key_handle g <> None ->
  template_rand_bytes buf num g w = Some r ->
  exists n,
    replies (rand_world r) = skipn n (replies w) /\
    firstn (Z.to_nat (rand_provided r)) (rand_buf r) ++ leftover (rand_globals r)
    = leftover g ++ List.concat (map reply_block (firstn n (replies w))).
Proof.
  intros Hwf Hn Hu Hh T.
  destruct (rand_bytes_open buf num g w Hh Hwf Hn)
    as (out & ok & g' & w' & P & E).
  rewrite E in T. inversion T; subst r; simpl.
  destruct (produce_conserves _ _ _ _ _ _ _ _ P Hwf) as (n & Hr & Hl).
  exists n. split; [exact Hr|].
  rewrite Nat2Z.id, memcpy_0_firstn. exact Hl.
Qed.

End Engine.







(** * Concrete runs *)

Ltac concrete_wf := unfold wf, SIZE_MOD; simpl; lia.

(** ** C1 *)



(** ** C2 *)

(** The block [1; 2; 3] has been read to its end and the service answers the
    next fetch with an empty ["key_buffer"].  The fetch returns -1, and the
    block and the read position 3 are gone. *)
Lemma fetch_key_failure_changes_buffer :
  template_engine_fetch_key base64_decode (session [x01; x02; x03] 3)
    (service [key_reply EmptyString])
  = (-1, mkGlobals (Some qkd_url) (Some "H1"%string) None 0 0,
     mkWorld [] [get_key_request qkd_url "H1"]) /\
  qkd_key_buffer (session [x01; x02; x03] 3) = Some [x01; x02; x03] /\
  qkd_key_buffer_pos (session [x01; x02; x03] 3) = 3 /\
  session [x01; x02; x03] 3
    <> mkGlobals (Some qkd_url) (Some "H1"%string) None 0 0.
Proof.
  split; [vm_compute; reflexivity|].
  split; [reflexivity|]. split; [reflexivity|]. discriminate.
Qed.

(** The same state, the fetch answered with status 500. *)
Lemma fetch_key_failure_empties_buffer_witness :
  let g := session [x01; x02; x03] 3 in
  let w := service [Http 500 "busy"] in
  body_received (next_reply w) = true /\
  reply_block base64_decode (next_reply w) = [] /\
  template_engine_fetch_key base64_decode g w
  = (-1, mkGlobals (Some qkd_url) (Some "H1"%string) None 0 0,
     mkWorld [] [get_key_request qkd_url "H1"]).
Proof.
  intros g w. split; [reflexivity|]. split; [reflexivity|].
  refine (proj1 (proj1 (proj1 (proj2
            (fetch_key_failure_empties_buffer base64_decode g w _))
            qkd_url "H1"%string _ _) _));
    reflexivity.
Defined.

(** ** C3 *)

(** Two runs of two three-byte requests against a service that hands out
    three-byte blocks.  In the second run the URL is changed between the
    requests, after the session was opened: its second fetch goes to the new
    address, with the handle of the session opened at the old one. *)
Lemma set_url_after_open_redirects_fetch :
  two_requests base64_decode (fun g => g)
    (service [handle_reply "H1"; ok_reply; key_reply "AQID"; key_reply "BAUG"])
  = Some (mkWorld [] [open_request qkd_url; connect_request qkd_url "H1";
                      get_key_request qkd_url "H1";
                      get_key_request qkd_url "H1"]) /\
  two_requests base64_decode
    (fun g => snd (template_engine_ctrl 1 (Some "http://10.0.0.2:5000"%string) g))
    (service [handle_reply "H1"; ok_reply; key_reply "AQID"; key_reply "BAUG"])
  = Some (mkWorld [] [open_request qkd_url; connect_request qkd_url "H1";
                      get_key_request qkd_url "H1";
                      get_key_request "http://10.0.0.2:5000" "H1"]) /\
  get_key_request qkd_url "H1" <> get_key_request "http://10.0.0.2:5000" "H1".
Proof.
  split; [vm_compute; reflexivity|].
  split; [vm_compute; reflexivity|].
  vm_compute. discriminate.
Qed.

Lemma fetch_uses_current_url_witness :
  let g := session [x01; x02; x03] 3 in
  let w := service [key_reply "BAUG"] in
  let u' := "http://10.0.0.2:5000"%string in
  fst (template_engine_ctrl 1 (Some u') g) = 1 /\
  qkd_key_handle (snd (template_engine_ctrl 1 (Some u') g)) = Some "H1"%string /\
  sent (snd (template_engine_fetch_key base64_decode
               (snd (template_engine_ctrl 1 (Some u') g)) w))
    = sent w ++ [get_key_request u' "H1"] /\
  sent (snd (template_engine_fetch_key base64_decode g w))
    = sent w ++ [get_key_request qkd_url "H1"] /\
  (get_key_request u' "H1" = get_key_request qkd_url "H1" -> u' = qkd_url).
Proof.
  intros g w u'.
  apply (fetch_uses_current_url base64_decode g w qkd_url "H1" u');
    reflexivity.
Defined.

(** ** C4 *)

(** Against [flaky_service], four bytes and then two bytes are requested in
    one run, six bytes at once in the other.  The split run yields
    [1; 2; 3] and then [4; 5]: its second call fetches again.  The single
    call yields [1; 2; 3] only. *)
Lemma rand_bytes_split_differs_after_failed_fetch :
  template_rand_bytes base64_decode (unwritten 4) 4 configured flaky_service
  = Some (mkRand 1 [x01; x02; x03; xff] 3
            (mkGlobals (Some qkd_url) (Some "H1"%string) None 0 0)
            (mkWorld [key_reply "BAUG"]
               [open_request qkd_url; connect_request qkd_url "H1";
                get_key_request qkd_url "H1"; get_key_request qkd_url "H1"])) /\
  template_rand_bytes base64_decode (unwritten 2) 2
    (mkGlobals (Some qkd_url) (Some "H1"%string) None 0 0)
    (mkWorld [key_reply "BAUG"]
       [open_request qkd_url; connect_request qkd_url "H1";
        get_key_request qkd_url "H1"; get_key_request qkd_url "H1"])
  = Some (mkRand 1 [x04; x05] 2 (session [x04; x05; x06] 2)
            (mkWorld []
               [open_request qkd_url; connect_request qkd_url "H1";
                get_key_request qkd_url "H1"; get_key_request qkd_url "H1";
                get_key_request qkd_url "H1"])) /\
  template_rand_bytes base64_decode (unwritten 6) 6 configured flaky_service
  = Some (mkRand 1 [x01; x02; x03; xff; xff; xff] 3
            (mkGlobals (Some qkd_url) (Some "H1"%string) None 0 0)
            (mkWorld [key_reply "BAUG"]
               [open_request qkd_url; connect_request qkd_url "H1";
                get_key_request qkd_url "H1"; get_key_request qkd_url "H1"])) /\
  firstn 3 [x01; x02; x03; xff] ++ firstn 2 [x04; x05]
  <> firstn 3 [x01; x02; x03; xff; xff; xff].
Proof.
  split; [vm_compute; reflexivity|].
  split; [vm_compute; reflexivity|].
  split; [vm_compute; reflexivity|].
  discriminate.
Qed.

(** Against [flaky_service], two bytes and then four: the first request is
    served in full from the block [1; 2; 3], the second obtains the byte
    left and stops at the failed fetch, as the single request for six bytes
    does. *)
Lemma rand_bytes_concatenation_witness :
  exists r1,
    template_rand_bytes base64_decode (unwritten 2) 2 configured flaky_service
    = Some r1 /\
    exists r2 r,
      template_rand_bytes base64_decode (unwritten 4) 4
        (rand_globals r1) (rand_world r1) = Some r2 /\
      template_rand_bytes base64_decode (unwritten 6) (2 + 4)
        configured flaky_service = Some r /\
      rand_provided r = 2 + rand_provided r2 /\
      firstn (Z.to_nat 2) (rand_buf r1)
        ++ firstn (Z.to_nat (rand_provided r2)) (rand_buf r2)
      = firstn (Z.to_nat (rand_provided r)) (rand_buf r) /\
      rand_globals r = rand_globals r2 /\ rand_world r = rand_world r2 /\
      (rand_ret r = 1 <-> rand_ret r2 = 1 \/ 0 < 2).
Proof.
  eexists. split; [reflexivity|].
  refine (proj1 (rand_bytes_concatenation base64_decode (unwritten 6)
                   (unwritten 2) (unwritten 4) 2 4 configured flaky_service
                   _ _ _ _) _ _ _ _).
  - concrete_wf.
  - lia.
  - lia.
  - unfold INT_MAX; lia.
  - reflexivity.
  - reflexivity.
  - reflexivity.
Defined.

(** ** C5 *)

(** The open succeeds with handle [H1], the confirmation is answered with
    status 503 and the cleanup close with status 500: the connect still
    returns -1, after the three requests, and keeps no handle. *)
Lemma connect_confirmation_failure_cleanup_witness :
  template_engine_connect base64_decode configured
    (service [handle_reply "H1"; Http 503 EmptyString; Http 500 EmptyString])
  = (-1, set_handle configured None,
     post_close base64_decode qkd_url "H1"
       (mkWorld [Http 500 EmptyString]
                [open_request qkd_url; connect_request qkd_url "H1"])) /\
  qkd_key_handle (set_handle configured None) = None /\
  sent (post_close base64_decode qkd_url "H1"
          (mkWorld [Http 500 EmptyString]
                   [open_request qkd_url; connect_request qkd_url "H1"]))
  = sent (service [handle_reply "H1"; Http 503 EmptyString; Http 500 EmptyString])
    ++ [open_request qkd_url; connect_request qkd_url "H1";
        close_request qkd_url "H1"].
Proof.
  apply (connect_confirmation_failure_cleanup base64_decode configured
           (service [handle_reply "H1"; Http 503 EmptyString; Http 500 EmptyString])
           qkd_url "H1"
           (mkPost (Some (handle_payload "H1")) (Some (Some "H1"%string)) None None)
           (mkWorld [Http 503 EmptyString; Http 500 EmptyString]
                    [open_request qkd_url])
           (mkPost None None None None)
           (mkWorld [Http 500 EmptyString]
                    [open_request qkd_url; connect_request qkd_url "H1"])).
  - reflexivity.
  - vm_compute; reflexivity.
  - discriminate.
  - reflexivity.
  - vm_compute; reflexivity.
  - reflexivity.
Defined.

(** ** C6 *)

(** Sixteen bytes wanted.  The connect fails at the open request
    (connection refused), at the parsing of the handle (a 200 reply without
    ["key_handle"]), and at the confirmation (status 503, after which the
    cleanup close is posted). *)
Lemma rand_bytes_open_failure_witness :
  (template_rand_bytes base64_decode (unwritten 16) 16 configured
     (service [CurlError])
   = Some (mkRand 0 (unwritten 16) 0 configured
             (mkWorld [] [open_request qkd_url])) /\
   configured = configured /\ qkd_key_handle configured = None) /\
  (template_rand_bytes base64_decode (unwritten 16) 16 configured
     (service [ok_reply])
   = Some (mkRand 0 (unwritten 16) 0 configured
             (mkWorld [] [open_request qkd_url])) /\
   configured = configured /\ qkd_key_handle configured = None) /\
  (template_rand_bytes base64_decode (unwritten 16) 16 configured
     (service [handle_reply "H1"; Http 503 EmptyString; ok_reply])
   = Some (mkRand 0 (unwritten 16) 0 configured
             (mkWorld [] [open_request qkd_url; connect_request qkd_url "H1";
                          close_request qkd_url "H1"])) /\
   configured = configured /\ qkd_key_handle configured = None).
Proof.
  split; [|split].
  - apply (rand_bytes_open_failure base64_decode (unwritten 16) 16 configured
             (service [CurlError]) (-1) configured
             (mkWorld [] [open_request qkd_url]));
      [reflexivity | vm_compute; reflexivity | lia].
  - apply (rand_bytes_open_failure base64_decode (unwritten 16) 16 configured
             (service [ok_reply]) (-1) configured
             (mkWorld [] [open_request qkd_url]));
      [reflexivity | vm_compute; reflexivity | lia].
  - apply (rand_bytes_open_failure base64_decode (unwritten 16) 16 configured
             (service [handle_reply "H1"; Http 503 EmptyString; ok_reply])
             (-1) configured
             (mkWorld [] [open_request qkd_url; connect_request qkd_url "H1";
                          close_request qkd_url "H1"]));
      [reflexivity | vm_compute; reflexivity | lia].
Defined.

(** ** C7 *)

(** Five bytes wanted, two left in the block. *)
Lemma copy_step_takes_min_witness :
  copy_from_key_buffer (unwritten 5) 5 0 (session [x01; x02; x03; x04; x05; x06] 4)
  = ([x05; x06; xff; xff; xff], 2, session [x01; x02; x03; x04; x05; x06] 6) /\
  Z.of_nat (List.length
              (key_slice (session [x01; x02; x03; x04; x05; x06] 4) 2))
  = Z.min (5 - 0) (6 - 4).
Proof.
  split; [vm_compute; reflexivity|].
  refine (proj1 (copy_step_takes_min base64_decode (unwritten 5) 5 0
                   (session [x01; x02; x03; x04; x05; x06] 4) _ _ _)).
  - concrete_wf.
  - lia.
  - unfold INT_MAX; lia.
Defined.

(** ** C8 *)

Lemma fetch_key_rejects_empty_block_witness :
  template_engine_fetch_key base64_decode (session [x01; x02; x03] 3)
    (service [key_reply EmptyString])
  = (-1, emptied (session [x01; x02; x03] 3),
     mkWorld [] (sent (service [key_reply EmptyString])
                 ++ [get_key_request qkd_url "H1"])) /\
  qkd_key_buffer (emptied (session [x01; x02; x03] 3)) = None /\
  qkd_key_buffer_len (emptied (session [x01; x02; x03] 3)) = 0.
Proof.
  apply (fetch_key_rejects_empty_block base64_decode
           (session [x01; x02; x03] 3) (service [key_reply EmptyString])
           qkd_url "H1"
           ("{" ++ key_buffer_name ++ ": " ++ quoted EmptyString ++ "}")%string
           []
           (key_buffer_name ++ ": " ++ quoted EmptyString ++ "}")%string
           EmptyString);
    reflexivity.
Defined.

(** ** C9 *)

(** Forty-eight bytes wanted from a service that fails every fetch after the
    first block: the call returns after the one failed fetch. *)
Lemma rand_bytes_terminates_without_retry_witness :
  exists r,
    template_rand_bytes base64_decode (unwritten 48) 48 configured
      (service [handle_reply "H1"; ok_reply; key_reply "AQID";
                Http 500 EmptyString; Http 500 EmptyString]) = Some r /\
    0 <= rand_provided r <= Z.max 0 48 /\
    (rand_ret r = 0 \/ rand_ret r = 1) /\
    skipn (Z.to_nat (rand_provided r)) (rand_buf r)
      = skipn (Z.to_nat (rand_provided r)) (unwritten 48) /\
    skipn (Z.to_nat 48) (rand_buf r) = skipn (Z.to_nat 48) (unwritten 48) /\
    (Z.max 0 48 <= Z.of_nat (List.length (unwritten 48)) ->
     List.length (rand_buf r) = List.length (unwritten 48)).
Proof.
  apply (rand_bytes_terminates_without_retry base64_decode (unwritten 48) 48
           configured
           (service [handle_reply "H1"; ok_reply; key_reply "AQID";
                     Http 500 EmptyString; Http 500 EmptyString])).
  - concrete_wf.
  - unfold INT_MAX; lia.
Defined.

(** ** C10 *)

(** No byte wanted, no session: the open request is sent all the same, and
    its refusal makes the call fail. *)
Lemma rand_bytes_zero_connects_first_witness :
  template_rand_bytes base64_decode [] 0 configured (service [CurlError])
  = Some (mkRand 0 [] 0 configured (mkWorld [] [open_request qkd_url])).
Proof.
  exact (proj1 (rand_bytes_zero_connects_first base64_decode [] configured
                  (service [CurlError]) eq_refl)).
Defined.

(** The same call against a service that answers: both round-trips are
    made, 1 is returned, and nothing is written. *)
Example rand_bytes_zero_after_connect :
  template_rand_bytes base64_decode [] 0 configured
    (service [handle_reply "H1"; ok_reply])
  = Some (mkRand 1 [] 0
            (mkGlobals (Some qkd_url) (Some "H1"%string) None 0 0)
            (mkWorld [] [open_request qkd_url; connect_request qkd_url "H1"])).
Proof. vm_compute; reflexivity. Qed.

(** * Concrete runs for the further properties *)

(** ** X1 *)

Lemma connect_handle_round_trip_witness :
  template_engine_connect base64_decode configured
    (service [handle_reply "H1"; ok_reply])
  = (0, set_handle configured (Some "H1"%string),
     mkWorld [] (sent (service [handle_reply "H1"; ok_reply])
                 ++ [open_request qkd_url; connect_request qkd_url "H1"])).
Proof.
  apply (connect_handle_round_trip base64_decode configured
           (service [handle_reply "H1"; ok_reply]) qkd_url "H1" "{}" []);
    reflexivity.
Defined.

(** ** X2 *)

Lemma fetch_key_installs_decoded_block_witness :
  template_engine_fetch_key base64_decode (session [x01; x02; x03] 3)
    (service [key_reply "BAUG"])
  = (0, mkGlobals (Some qkd_url) (Some "H1"%string) (Some [x04; x05; x06])
                  (Z.of_nat (List.length [x04; x05; x06])) 0,
     mkWorld [] (sent (service [key_reply "BAUG"])
                 ++ [get_key_request qkd_url "H1"])).
Proof.
  apply (fetch_key_installs_decoded_block base64_decode
           (session [x01; x02; x03] 3) (service [key_reply "BAUG"])
           qkd_url "H1" "BAUG" [x04; x05; x06] []);
    try reflexivity.
  simpl. unfold INT_MAX. lia.
Defined.

(** ** X3 *)

Lemma fetch_key_succeeds_exactly_when_witness :
  fst (fst (template_engine_fetch_key base64_decode (session [x01; x02; x03] 3)
              (service [key_reply "BAUG"]))) = 0 <->
  exists body p b64 bs rest,
    replies (service [key_reply "BAUG"]) = Http 200 body :: rest /\
    strstr body key_buffer_name = Some p /\
    quoted_value_after p = Some b64 /\
    base64_decode b64 = Some bs /\
    0 <= to_int (to_size_t (Z.of_nat (List.length bs))) /\
    to_size_t (Z.of_nat (List.length bs)) <> 0.
Proof.
  apply (fetch_key_succeeds_exactly_when base64_decode
           (session [x01; x02; x03] 3) (service [key_reply "BAUG"])
           qkd_url "H1");
    reflexivity.
Defined.

(** ** X4 *)

Lemma connect_succeeds_exactly_when_witness :
  fst (fst (template_engine_connect base64_decode configured
              (service [handle_reply "H1"; ok_reply]))) = 0 <->
  exists url body p h b2 rest,
    qkd_service_url configured = Some url /\
    replies (service [handle_reply "H1"; ok_reply])
    = Http 200 body :: Http 200 b2 :: rest /\
    strstr body key_handle_name = Some p /\
    quoted_value_after p = Some h.
Proof.
  apply (connect_succeeds_exactly_when base64_decode configured
           (service [handle_reply "H1"; ok_reply]));
    reflexivity.
Defined.

(** ** X6 *)

(** The session [H1] is closed with two bytes unread; the next request is
    served in the session [H2] from the block fetched there. *)
Lemma rand_bytes_reopens_after_close_witness :
  template_rand_bytes base64_decode (unwritten 2) 2
    (fst (template_engine_close base64_decode (session [x01; x02; x03] 1)
            (service [ok_reply])))
    (service [handle_reply "H2"; ok_reply; key_reply "BAUG"])
  = template_rand_bytes base64_decode (unwritten 2) 2
      (mkGlobals (Some qkd_url) (Some "H2"%string) None 0 0)
      (mkWorld [key_reply "BAUG"]
         (sent (service [handle_reply "H2"; ok_reply; key_reply "BAUG"])
          ++ [open_request qkd_url; connect_request qkd_url "H2"])).
Proof.
  apply (rand_bytes_reopens_after_close base64_decode (unwritten 2) 2
           (session [x01; x02; x03] 1) (service [ok_reply])
           (service [handle_reply "H2"; ok_reply; key_reply "BAUG"])
           qkd_url "H2" "{}" [key_reply "BAUG"]);
    reflexivity.
Defined.

Example rand_bytes_after_close_serves_new_block :
  option_map rand_buf
    (template_rand_bytes base64_decode (unwritten 2) 2
       (fst (template_engine_close base64_decode (session [x01; x02; x03] 1)
               (service [ok_reply])))
       (service [handle_reply "H2"; ok_reply; key_reply "BAUG"]))
  = Some [x04; x05].
Proof. vm_compute; reflexivity. Qed.

(** ** X7 *)

(** The fetch fails: the request returns 0 and the session is kept. *)
Lemma rand_bytes_keeps_url_and_session_witness :
  exists r,
    template_rand_bytes base64_decode (unwritten 4) 4
      (session [x01; x02; x03] 3) (service [Http 500 EmptyString]) = Some r /\
    qkd_service_url (rand_globals r)
    = qkd_service_url (session [x01; x02; x03] 3) /\
    template_rand_status (rand_globals r)
    = template_rand_status (session [x01; x02; x03] 3) /\
    (qkd_key_handle (session [x01; x02; x03] 3) <> None ->
     qkd_key_handle (rand_globals r)
     = qkd_key_handle (session [x01; x02; x03] 3)).
Proof.
  eexists. split; [reflexivity|].
  apply (rand_bytes_keeps_url_and_session base64_decode (unwritten 4) 4
           (session [x01; x02; x03] 3) (service [Http 500 EmptyString])).
  - concrete_wf.
  - unfold INT_MAX; lia.
  - reflexivity.
Defined.

(** ** X9 *)

Lemma destroy_resets_engine_witness :
  fst (fst (template_engine_destroy base64_decode (session [x01; x02; x03] 1)
              (service [ok_reply]))) = 1 /\
  snd (fst (template_engine_destroy base64_decode (session [x01; x02; x03] 1)
              (service [ok_reply]))) = initial_globals /\
  (forall buf num w',
     template_rand_bytes base64_decode buf num initial_globals w'
     = Some (mkRand 0 buf 0 initial_globals w')).
Proof.
  apply (destroy_resets_engine base64_decode (session [x01; x02; x03] 1)
           (service [ok_reply])).
  unfold session_configured. simpl. intros _. discriminate.
Defined.

(** ** X10 *)

Lemma rand_bytes_served_from_buffer_witness :
  template_rand_bytes base64_decode (unwritten 3) 2
    (session [x01; x02; x03; x04; x05; x06] 3) (service [])
  = Some (mkRand 1
            (memcpy (unwritten 3) 0
               (key_slice (session [x01; x02; x03; x04; x05; x06] 3)
                          (Z.max 0 2)))
            (Z.max 0 2)
            (set_pos (session [x01; x02; x03; x04; x05; x06] 3)
               (qkd_key_buffer_pos (session [x01; x02; x03; x04; x05; x06] 3)
                + Z.max 0 2))
            (service [])).
Proof.
  apply (rand_bytes_served_from_buffer base64_decode (unwritten 3) 2
           (session [x01; x02; x03; x04; x05; x06] 3) (service [])).
  - concrete_wf.
  - discriminate.
  - unfold INT_MAX; lia.
  - simpl; lia.
Defined.

Example served_from_buffer_example :
  option_map rand_buf
    (template_rand_bytes base64_decode (unwritten 3) 2
       (session [x01; x02; x03; x04; x05; x06] 3) (service []))
  = Some [x04; x05; xff].
Proof. vm_compute; reflexivity. Qed.

(** ** X11 *)

Lemma rand_bytes_refills_when_exhausted_witness :
  template_rand_bytes base64_decode (unwritten 2) 2
    (session [x01; x02; x03] 3) (service [key_reply "BAUG"])
  = Some (mkRand 1 (memcpy (unwritten 2) 0 (firstn (Z.to_nat 2) [x04; x05; x06]))
            2
            (mkGlobals (Some qkd_url) (Some "H1"%string) (Some [x04; x05; x06])
                       (Z.of_nat (List.length [x04; x05; x06])) 2)
            (mkWorld [] (sent (service [key_reply "BAUG"])
                         ++ [get_key_request qkd_url "H1"]))).
Proof.
  apply (rand_bytes_refills_when_exhausted base64_decode (unwritten 2) 2
           (session [x01; x02; x03] 3) (service [key_reply "BAUG"])
           qkd_url "H1" "BAUG" [x04; x05; x06] []);
    try reflexivity.
  - simpl; lia.
  - simpl; lia.
  - simpl; unfold INT_MAX; lia.
Defined.

(** ** X12 *)

(** Six bytes wanted, one block of three, then status 500: two fetch
    requests for three bytes. *)
Lemma rand_bytes_sends_only_fetches_witness :
  exists r,
    template_rand_bytes base64_decode (unwritten 6) 6
      (session [x01; x02; x03] 3)
      (service [key_reply "BAUG"; Http 500 EmptyString]) = Some r /\
    exists n,
      sent (rand_world r)
      = sent (service [key_reply "BAUG"; Http 500 EmptyString])
        ++ repeat (get_key_request qkd_url "H1") n /\
      Z.of_nat n <= rand_provided r + (if rand_provided r <? 6 then 1 else 0).
Proof.
  eexists. split; [reflexivity|].
  apply (rand_bytes_sends_only_fetches base64_decode (unwritten 6) 6
           (session [x01; x02; x03] 3)
           (service [key_reply "BAUG"; Http 500 EmptyString]) _ qkd_url "H1").
  - concrete_wf.
  - unfold INT_MAX; lia.
  - reflexivity.
  - reflexivity.
  - reflexivity.
Defined.

(** ** X13 *)

Lemma rand_bytes_failure_writes_nothing_witness :
  exists r,
    template_rand_bytes base64_decode (unwritten 4) 4
      (session [x01; x02; x03] 3) (service [Http 500 EmptyString]) = Some r /\
    (rand_ret r = 0 \/ rand_ret r = 1) /\
    (rand_ret r = 0 -> rand_provided r = 0 /\ rand_buf r = unwritten 4).
Proof.
  eexists. split; [reflexivity|].
  apply (rand_bytes_failure_writes_nothing base64_decode (unwritten 4) 4
           (session [x01; x02; x03] 3) (service [Http 500 EmptyString])).
  - concrete_wf.
  - unfold INT_MAX; lia.
  - reflexivity.
Defined.

(** ** X14 *)

(** A buffer of eight bytes, six of them requested, three provided. *)
Lemma rand_bytes_stays_in_buffer_witness :
  exists r,
    template_rand_bytes base64_decode (unwritten 8) 6
      (session [x01; x02; x03] 3)
      (service [key_reply "BAUG"; Http 500 EmptyString]) = Some r /\
    0 <= rand_provided r <= Z.max 0 6 /\
    List.length (rand_buf r) = List.length (unwritten 8) /\
    skipn (Z.to_nat (rand_provided r)) (rand_buf r)
    = skipn (Z.to_nat (rand_provided r)) (unwritten 8).
Proof.
  eexists. split; [reflexivity|].
  apply (rand_bytes_stays_in_buffer base64_decode (unwritten 8) 6
           (session [x01; x02; x03] 3)
           (service [key_reply "BAUG"; Http 500 EmptyString])).
  - concrete_wf.
  - unfold INT_MAX; lia.
  - simpl; lia.
  - reflexivity.
Defined.

(** ** X15 *)

Lemma write_callback_appends_witness :
  fst (WriteMemoryCallback [x02; x03] 1 (Z.of_nat (List.length [x02; x03]))
         (mkMem ([x01] ++ [x00]) (Z.of_nat (List.length [x01]))) xff)
  = Z.of_nat (List.length [x02; x03]) /\
  memory (snd (WriteMemoryCallback [x02; x03] 1
                 (Z.of_nat (List.length [x02; x03]))
                 (mkMem ([x01] ++ [x00]) (Z.of_nat (List.length [x01]))) xff))
  = [x01] ++ [x02; x03] ++ [x00] /\
  size (snd (WriteMemoryCallback [x02; x03] 1
               (Z.of_nat (List.length [x02; x03]))
               (mkMem ([x01] ++ [x00]) (Z.of_nat (List.length [x01]))) xff))
  = Z.of_nat (List.length ([x01] ++ [x02; x03])).
Proof.
  apply (write_callback_appends [x01] x00 [x02; x03] xff).
  simpl. unfold SIZE_MOD. lia.
Defined.

(** ** X16 *)

Lemma receive_accumulates_body_witness :
  receive [[x01; x02]; [x03]] (empty_chunk xff) xff
  = mkMem (List.concat [[x01; x02]; [x03]] ++ [x00])
          (Z.of_nat (List.length (List.concat [[x01; x02]; [x03]]))).
Proof.
  apply (receive_accumulates_body [[x01; x02]; [x03]] xff).
  - simpl. unfold SIZE_MOD. lia.
  - discriminate.
Defined.

(** ** X17 *)

Lemma host_calls_keep_invariant_witness :
  exists g' w',
    host_run base64_decode
      [CallCtrl 1 (Some qkd_url); CallRandStatus;
       CallRandBytes (unwritten 4) 4; CallRandCleanup;
       CallRandBytes (unwritten 2) 2; CallDestroy]
      initial_globals
      (service [handle_reply "H1"; ok_reply; key_reply "AQID";
                Http 500 EmptyString; ok_reply; CurlError])
    = Some (g', w') /\
    wf g' /\ session_configured g'.
Proof.
  apply (host_calls_keep_invariant base64_decode).
  unfold int_counts, INT_MAX. repeat constructor; lia.
Defined.

(** ** X18 *)

(** Two bytes unread, four wanted: the request uses one reply and leaves one
    byte of its block. *)
Lemma rand_bytes_conserves_key_material_witness :
  exists r,
    template_rand_bytes base64_decode (unwritten 4) 4
      (session [x01; x02; x03] 1)
      (service [key_reply "BAUG"; key_reply "BwgJ"]) = Some r /\
    exists n,
      replies (rand_world r)
      = skipn n (replies (service [key_reply "BAUG"; key_reply "BwgJ"])) /\
      firstn (Z.to_nat (rand_provided r)) (rand_buf r)
        ++ leftover (rand_globals r)
      = leftover (session [x01; x02; x03] 1)
        ++ List.concat
             (map (reply_block base64_decode)
                (firstn n (replies (service [key_reply "BAUG"; key_reply "BwgJ"])))).
Proof.
  eexists. split; [reflexivity|].
  apply (rand_bytes_conserves_key_material base64_decode (unwritten 4) 4
           (session [x01; x02; x03] 1)
           (service [key_reply "BAUG"; key_reply "BwgJ"])).
  - concrete_wf.
  - unfold INT_MAX; lia.
  - discriminate.
  - discriminate.
  - reflexivity.
Defined.

Example conserved_key_material_example :
  option_map (fun r => (firstn (Z.to_nat (rand_provided r)) (rand_buf r),
                        leftover (rand_globals r)))
    (template_rand_bytes base64_decode (unwritten 4) 4
       (session [x01; x02; x03] 1)
       (service [key_reply "BAUG"; key_reply "BwgJ"]))
  = Some ([x02; x03; x04; x05], [x06]).
Proof. vm_compute; reflexivity. Qed.
